(** * Product policy evaluator: [ProductService] of
      [src/services/impl/product.service.ts]

    A shallow embedding of the service class and of its two collaborators
    (the [products] table behind [db] and the notification port [ns]),
    followed by the properties of the unit-purchase rules.

    Modelling conventions.
    - JavaScript numbers that hold row values ([id], [available],
      [leadTime]) and time values are integers, written in [Z].  The
      source computes on doubles: its one subtraction is exact on safe
      integers, and the theorems that state a decremented value carry
      that range ([isSafeInteger]); its restock date is exact whenever it
      is within the range of [Date], which [new_Date] checks.
    - A [Date] wraps a time value: an integer number of milliseconds, or
      NaN for an Invalid Date.  The relational operators of the source
      compare time values, [null] counts as [+0], and every comparison
      with NaN is false.
    - An [async] method is a state transformer over the [World], which
      holds the table and the ordered journal of the calls made on the two
      collaborators.  [await] is sequencing.  The collaborators do not
      fail in this model, so no method has an exceptional outcome. *)

From Stdlib Require Import ZArith List String Bool Lia Permutation.
Import ListNotations.
Local Open Scope string_scope.
Local Open Scope list_scope.
Local Open Scope Z_scope.

(* ------------------------------------------------------------------ *)
(** ** Numbers and dates *)

(** The time value of a [Date]: [None] is NaN. *)
Definition Num : Type := option Z.

Record Date : Type := mkDate { getTime : Num }.

(** [const DAY_IN_MS = 24 * 60 * 60 * 1000] *)
Definition DAY_IN_MS : Z := 24 * 60 * 60 * 1000.

(** Largest magnitude of a valid time value (ECMAScript TimeClip). *)
Definition MAX_TIME : Z := 8640000000000000.

(** [new Date(v)]: values that are NaN or out of range give an Invalid
    Date. *)
Definition new_Date (v : Num) : Date :=
  match v with
  | Some t => if Z.abs t <=? MAX_TIME then mkDate (Some t) else mkDate None
  | None => mkDate None
  end.

(** [a + b] where [a] may be NaN. *)
Definition num_add (a : Num) (b : Z) : Num :=
  match a with
  | Some x => Some (x + b)
  | None => None
  end.

(** The number an operand of [<] or [>] is converted to: a [Date] gives
    its time value, [null] gives [+0]. *)
Definition toNumber (d : option Date) : Num :=
  match d with
  | Some d => getTime d
  | None => Some 0
  end.

(** [a > b] on numbers. *)
Definition num_gt (a b : Num) : bool :=
  match a, b with
  | Some x, Some y => y <? x
  | _, _ => false
  end.

(** [a > b] and [a < b] on operands of type [Date | null]. *)
Definition js_gt (a b : option Date) : bool := num_gt (toNumber a) (toNumber b).
Definition js_lt (a b : option Date) : bool := num_gt (toNumber b) (toNumber a).

(** Truthiness of a [Date | null]: every object is truthy, [null] is not. *)
Definition truthy (d : option Date) : bool :=
  match d with
  | Some _ => true
  | None => false
  end.

(* ------------------------------------------------------------------ *)
(** ** Rows and patches *)

(** Modelled from the spec: the row type [Product] of [db/schema], which
    the service imports and which is not among the sources.  The fields
    are those of the data model (section 3) and of the object literals of
    the service's tests; the three dates are [Date | null], and [type] is
    the stored tag, a string that the service casts to [ProductType]. *)
Record Product : Type := mkProduct {
  id : Z;
  leadTime : Z;
  available : Z;
  type : string;
  name : string;
  expiryDate : option Date;
  seasonStartDate : option Date;
  seasonEndDate : option Date
}.

(** [Partial<Product>]: every field may be absent. *)
Record Patch : Type := mkPatch {
  set_id : option Z;
  set_leadTime : option Z;
  set_available : option Z;
  set_type : option string;
  set_name : option string;
  set_expiryDate : option (option Date);
  set_seasonStartDate : option (option Date);
  set_seasonEndDate : option (option Date)
}.

(** The three object literals the service passes to [updateProduct]. *)
Definition patchAvailable (a : Z) : Patch :=
  mkPatch None None (Some a) None None None None None.
Definition patchLeadTime (l : Z) : Patch :=
  mkPatch None (Some l) None None None None None None.
Definition patchStock (a l : Z) : Patch :=
  mkPatch None (Some l) (Some a) None None None None None.

Definition orElse {A : Type} (o : option A) (d : A) : A :=
  match o with
  | Some v => v
  | None => d
  end.

(** [SET patch] on one row. *)
Definition applyPatch (patch : Patch) (r : Product) : Product :=
  mkProduct
    (orElse (set_id patch) (id r))
    (orElse (set_leadTime patch) (leadTime r))
    (orElse (set_available patch) (available r))
    (orElse (set_type patch) (type r))
    (orElse (set_name patch) (name r))
    (orElse (set_expiryDate patch) (expiryDate r))
    (orElse (set_seasonStartDate patch) (seasonStartDate r))
    (orElse (set_seasonEndDate patch) (seasonEndDate r)).

(** Modelled from the spec: the persistence gateway [Database] of
    [db/type], not among the sources, "applies a partial field patch to
    the row matching productId".  This is
    [UPDATE products SET patch WHERE id = productId] on the whole table. *)
Definition sqlUpdate (productId : Z) (patch : Patch) (rows : list Product)
  : list Product :=
  map (fun r => if id r =? productId then applyPatch patch r else r) rows.

(* ------------------------------------------------------------------ *)
(** ** The world: table and journal *)

(** One call on a collaborator. *)
Inductive Call : Type :=
| DbUpdate (productId : Z) (patch : Patch)
| SendDelayNotification (leadTime : Z) (productName : string)
| SendOutOfStockNotification (productName : string)
| SendExpirationNotification (productName : string) (expiryDate : option Date).

Record World : Type := mkWorld {
  table : list Product;
  journal : list Call
}.

(** An [async] method returning [Promise<A>]. *)
Definition Task (A : Type) : Type := World -> A * World.

Definition ret {A : Type} (a : A) : Task A := fun w => (a, w).

Definition bind {A B : Type} (m : Task A) (k : A -> Task B) : Task B :=
  fun w => let (a, w') := m w in k a w'.

Declare Scope task_scope.
Delimit Scope task_scope with task.
Notation "m ;; k" := (bind m (fun _ => k))
  (at level 61, right associativity) : task_scope.
Local Open Scope task_scope.

(** The world a task leaves behind. *)
Definition exec {A : Type} (m : Task A) (w : World) : World := snd (m w).

(** Record a call on a collaborator. *)
Definition logCall (c : Call) (w : World) : World :=
  mkWorld (table w) (journal w ++ [c]).

Module ns.
(** Modelled from the spec: the port [INotificationService] of
    [services/notifications.port], not among the sources: three one-way
    calls, none awaited, with the signatures of section 6. *)
Definition sendDelayNotification (leadTime : Z) (productName : string)
  : Task unit :=
  fun w => (tt, logCall (SendDelayNotification leadTime productName) w).

Definition sendOutOfStockNotification (productName : string) : Task unit :=
  fun w => (tt, logCall (SendOutOfStockNotification productName) w).

Definition sendExpirationNotification (productName : string)
  (expiryDate : option Date) : Task unit :=
  fun w => (tt, logCall (SendExpirationNotification productName expiryDate) w).
End ns.

(* ------------------------------------------------------------------ *)
(** ** The service *)

(** [this.db.update(products).set(patch).where(eq(products.id, productId))] *)
Definition updateProduct (productId : Z) (patch : Patch) : Task unit :=
  fun w =>
    (tt, mkWorld (sqlUpdate productId patch (table w))
                 (journal w ++ [DbUpdate productId patch])).

(** [product.available - 1] is a subtraction on doubles in the source.
    It is the integer subtraction written here whenever [available] is a
    safe integer ([isSafeInteger] below); the theorems that state the
    value written carry that range as a hypothesis. *)
Definition decrementAvailable (product : Product) : Task unit :=
  updateProduct (id product) (patchAvailable (available product - 1)).

Definition notifyDelay (leadTime : Z) (p : Product) : Task unit :=
  updateProduct (id p) (patchLeadTime leadTime) ;;
  ns.sendDelayNotification leadTime (name p).

Definition isWithinSeason (p : Product) (now : Date) : bool :=
  truthy (seasonStartDate p) && truthy (seasonEndDate p)
  && js_gt (Some now) (seasonStartDate p)
  && js_lt (Some now) (seasonEndDate p).

Definition isNotExpired (p : Product) (now : Date) : bool :=
  truthy (expiryDate p) && js_gt (expiryDate p) (Some now).

Definition expectedRestockDate (p : Product) (now : Date) : Date :=
  new_Date (num_add (getTime now) (leadTime p * DAY_IN_MS)).

Definition handleSeasonalProduct (p : Product) (now : Date) : Task unit :=
  if js_gt (Some (expectedRestockDate p now)) (seasonEndDate p) then
    ns.sendOutOfStockNotification (name p) ;;
    updateProduct (id p) (patchAvailable 0)
  else if js_gt (seasonStartDate p) (Some now) then
    ns.sendOutOfStockNotification (name p) ;;
    updateProduct (id p) (patchStock (available p) (leadTime p))
  else
    notifyDelay (leadTime p) p.

Definition handleExpiredProduct (p : Product) (now : Date) : Task unit :=
  if (0 <? available p) && isNotExpired p now then
    decrementAvailable p
  else
    ns.sendExpirationNotification (name p) (expiryDate p) ;;
    updateProduct (id p) (patchAvailable 0).

Definition processNormalProduct (product : Product) : Task unit :=
  if 0 <? available product then
    decrementAvailable product
  else if 0 <? leadTime product then
    notifyDelay (leadTime product) product
  else
    ret tt.

Definition processSeasonalProduct (product : Product) (now : Date)
  : Task unit :=
  if isWithinSeason product now && (0 <? available product) then
    decrementAvailable product
  else
    handleSeasonalProduct product now.

Definition processExpirableProduct (product : Product) (now : Date)
  : Task unit :=
  if (0 <? available product) && isNotExpired product now then
    decrementAvailable product
  else
    handleExpiredProduct product now.

(** The [switch] on [product.type]; a tag that matches no [case] falls
    out of the statement.  [now] is the caller's clock reading (the
    default argument [new Date()] of the source). *)
Definition processOneUnit (product : Product) (now : Date) : Task unit :=
  if String.eqb (type product) "NORMAL" then processNormalProduct product
  else if String.eqb (type product) "SEASONAL" then
    processSeasonalProduct product now
  else if String.eqb (type product) "EXPIRABLE" then
    processExpirableProduct product now
  else ret tt.

(* ------------------------------------------------------------------ *)
(** ** Vocabulary of the properties *)

Definition isUpdate (c : Call) : bool :=
  match c with
  | DbUpdate _ _ => true
  | _ => false
  end.

(** Number of [updateProduct] calls in a run of calls. *)
Definition countUpdates (cs : list Call) : nat :=
  List.length (filter isUpdate cs).

(** The calls a task makes when started on an empty table with an empty
    journal. *)
Definition callsOf (m : Task unit) : list Call :=
  journal (exec m (mkWorld [] [])).

(** The three guards under which [processOneUnit] reaches
    [decrementAvailable]. *)
Definition takesDecrement (p : Product) (now : Date) : bool :=
  (String.eqb (type p) "NORMAL" && (0 <? available p))
  || (String.eqb (type p) "SEASONAL"
      && (isWithinSeason p now && (0 <? available p)))
  || (String.eqb (type p) "EXPIRABLE"
      && ((0 <? available p) && isNotExpired p now)).

(** Both season bounds are present and [now] lies strictly between them. *)
Definition withinSeason (p : Product) (now : Date) : Prop :=
  exists s e ts tn te,
    seasonStartDate p = Some s /\ seasonEndDate p = Some e /\
    getTime s = Some ts /\ getTime now = Some tn /\ getTime e = Some te /\
    ts < tn < te.

(** The expiry date is present and strictly after [now]. *)
Definition notExpired (p : Product) (now : Date) : Prop :=
  exists e te tn,
    expiryDate p = Some e /\
    getTime e = Some te /\ getTime now = Some tn /\ tn < te.

(** The date [d] is present and denotes the same instant as [now]. *)
Definition sameInstant (d : option Date) (now : Date) : Prop :=
  exists x t, d = Some x /\ getTime x = Some t /\ getTime now = Some t.

(** The products on which a unit purchase does nothing at all: a NORMAL
    product with neither stock nor lead time, and a product whose tag is
    not a [case] label. *)
Definition noAction (p : Product) : Prop :=
  (type p = "NORMAL" /\ available p <= 0 /\ leadTime p <= 0)
  \/ (type p <> "NORMAL" /\ type p <> "SEASONAL" /\ type p <> "EXPIRABLE").

(** The four actions of a unit purchase. *)
Inductive Action : Type :=
| Decrement
| DelayNotice
| OutOfStockNotice
| ExpirationNotice.

(** [performs p a cs]: the calls [cs] are action [a] on product [p]
    together with its one table update. *)
Inductive performs (p : Product) : Action -> list Call -> Prop :=
| performs_decrement :
    performs p Decrement
      [DbUpdate (id p) (patchAvailable (available p - 1))]
| performs_delay :
    performs p DelayNotice
      [DbUpdate (id p) (patchLeadTime (leadTime p));
       SendDelayNotification (leadTime p) (name p)]
| performs_out_of_stock_zero :
    performs p OutOfStockNotice
      [SendOutOfStockNotification (name p);
       DbUpdate (id p) (patchAvailable 0)]
| performs_out_of_stock_keep :
    performs p OutOfStockNotice
      [SendOutOfStockNotification (name p);
       DbUpdate (id p) (patchStock (available p) (leadTime p))]
| performs_expiration :
    performs p ExpirationNotice
      [SendExpirationNotification (name p) (expiryDate p);
       DbUpdate (id p) (patchAvailable 0)].

(** The tag is one of the three [case] labels of the [switch]. *)
Definition knownType (t : string) : bool :=
  String.eqb t "NORMAL" || String.eqb t "SEASONAL" || String.eqb t "EXPIRABLE".

(** The entry points of the service that write to the table. *)
Inductive Operation : Type :=
| ProcessOneUnit (product : Product) (now : Date)
| NotifyDelay (leadTime : Z) (p : Product)
| HandleSeasonalProduct (p : Product) (now : Date)
| HandleExpiredProduct (p : Product) (now : Date).

Definition perform (op : Operation) : Task unit :=
  match op with
  | ProcessOneUnit product now => processOneUnit product now
  | NotifyDelay l p => notifyDelay l p
  | HandleSeasonalProduct p now => handleSeasonalProduct p now
  | HandleExpiredProduct p now => handleExpiredProduct p now
  end.

(** The product an operation is given. *)
Definition subject (op : Operation) : Product :=
  match op with
  | ProcessOneUnit product _ => product
  | NotifyDelay _ p => p
  | HandleSeasonalProduct p _ => p
  | HandleExpiredProduct p _ => p
  end.

(** A patch that sets at most [available] and [leadTime]. *)
Definition stockOnly (patch : Patch) : Prop :=
  set_id patch = None /\ set_type patch = None /\ set_name patch = None /\
  set_expiryDate patch = None /\ set_seasonStartDate patch = None /\
  set_seasonEndDate patch = None.

(** A call that, when it is an update, targets row [productId] with a
    [stockOnly] patch. *)
Definition writesStockOf (productId : Z) (c : Call) : Prop :=
  match c with
  | DbUpdate i patch => i = productId /\ stockOnly patch
  | _ => True
  end.

(** Two versions of a row that agree on every field but [available] and
    [leadTime]. *)
Definition sameIdentity (r r' : Product) : Prop :=
  id r' = id r /\ type r' = type r /\ name r' = name r /\
  expiryDate r' = expiryDate r /\
  seasonStartDate r' = seasonStartDate r /\
  seasonEndDate r' = seasonEndDate r.

(* ------------------------------------------------------------------ *)
(** ** Sample data (the rows of the service's test suite) *)

(** A fixed clock reading and offsets from it in days. *)
Definition noon : Z := 1793534400000.
Definition today : Date := mkDate (Some noon).
Definition daysFromToday (n : Z) : Date := mkDate (Some (noon + n * DAY_IN_MS)).

Definition rj45Cable : Product :=
  mkProduct 1 15 0 "NORMAL" "RJ45 Cable" None None None.
Definition usbCable : Product :=
  mkProduct 1 15 2 "NORMAL" "USB Cable" None None None.
Definition usbDongle : Product :=
  mkProduct 1 10 0 "NORMAL" "USB Dongle" None None None.
Definition soldOutAdapter : Product :=
  mkProduct 1 0 0 "NORMAL" "Adapter" None None None.
Definition watermelon : Product :=
  mkProduct 1 15 3 "SEASONAL" "Watermelon" None
    (Some (daysFromToday (-2))) (Some (daysFromToday 10)).
Definition grapes : Product :=
  mkProduct 1 30 0 "SEASONAL" "Grapes" None
    (Some (daysFromToday (-2))) (Some (daysFromToday 10)).
Definition cherries : Product :=
  mkProduct 1 5 4 "SEASONAL" "Cherries" None
    (Some (daysFromToday 20)) (Some (daysFromToday 60)).
Definition pumpkin : Product :=
  mkProduct 1 3 0 "SEASONAL" "Pumpkin" None
    (Some (daysFromToday (-2))) (Some (daysFromToday 10)).
Definition butter : Product :=
  mkProduct 1 15 2 "EXPIRABLE" "Butter" (Some (daysFromToday 10)) None None.
Definition milk : Product :=
  mkProduct 1 15 6 "EXPIRABLE" "Milk" (Some (daysFromToday (-2))) None None.
Definition giftCard : Product :=
  mkProduct 1 15 6 "FLASHSALE" "Gift card" None None None.

(** A table that holds exactly the given row. *)
Definition tableOf (p : Product) : World := mkWorld [p] [].

(* ------------------------------------------------------------------ *)
(** ** The controller: the handler of [/orders/:orderId/processOrder] *)

(** One element of [order.products]: the query asks for no column of the
    relation and for the whole product, so an element is [{product}]. *)
Record OrderLine : Type := mkOrderLine { product : Product }.

Module Order.
(** Modelled from the spec: the result type of
    [db.query.orders.findFirst] with its [products], whose schema is not
    among the sources: the identifier the endpoint returns, and the
    collection of product references the handler walks through (absent
    when the value is falsy). *)
Record t : Type := mk {
  id : Z;
  products : option (list OrderLine)
}.
End Order.

(** What the handler can throw: reading [products] off an [undefined]
    order. *)
Inductive Error : Type :=
| TypeError.

(** The body passed to [reply.send]. *)
Record Reply : Type := mkReply { orderId : Z }.

(** The [for ... of] loop of the handler.  Each call of [processOneUnit]
    takes its default argument, a fresh reading of the clock: [clock n]
    is the reading at turn [n]. *)
Fixpoint processProducts (clock : nat -> Date) (productList : list OrderLine)
  : Task unit :=
  match productList with
  | [] => ret tt
  | line :: rest =>
      processOneUnit (product line) (clock 0%nat) ;;
      processProducts (fun n => clock (S n)) rest
  end.

(** The handler, from the fetched order on: [order] is the value of
    [findFirst], [None] when no order has the requested id. *)
Definition processOrder (clock : nat -> Date) (order : option Order.t)
  : Task (Error + Reply) :=
  match order with
  | None => ret (inl TypeError)
  | Some order =>
      match Order.products order with
      | Some productList => processProducts clock productList
      | None => ret tt
      end ;;
      ret (inr (mkReply (Order.id order)))
  end.

(* ------------------------------------------------------------------ *)
(** ** Further vocabulary *)

(** The table after the updates of a run of calls, in their order. *)
Fixpoint replay (cs : list Call) (rows : list Product) : list Product :=
  match cs with
  | [] => rows
  | DbUpdate i patch :: cs' => replay cs' (sqlUpdate i patch rows)
  | _ :: cs' => replay cs' rows
  end.

(** The product name a notification carries. *)
Definition notifiedName (c : Call) : option string :=
  match c with
  | DbUpdate _ _ => None
  | SendDelayNotification _ n => Some n
  | SendOutOfStockNotification n => Some n
  | SendExpirationNotification n _ => Some n
  end.

(** Number of notifications in a run of calls. *)
Definition countNotifications (cs : list Call) : nat :=
  List.length (filter (fun c => negb (isUpdate c)) cs).

(** An update that writes no negative [available]. *)
Definition writesNoDebt (c : Call) : Prop :=
  match c with
  | DbUpdate _ patch =>
      match set_available patch with
      | Some a => 0 <= a
      | None => True
      end
  | _ => True
  end.

(** The stored rows of the record's product agree with the record on the
    two stock fields, as they do right after a fetch. *)
Definition fresh (p : Product) (rows : list Product) : Prop :=
  forall r, In r rows -> id r = id p ->
            available r = available p /\ leadTime r = leadTime p.

(** The calls of the loop, turn by turn. *)
Fixpoint callsOfProducts (clock : nat -> Date) (productList : list OrderLine)
  : list Call :=
  match productList with
  | [] => []
  | line :: rest =>
      callsOf (processOneUnit (product line) (clock 0%nat))
      ++ callsOfProducts (fun n => clock (S n)) rest
  end.

(** The lines the handler walks through: none when the order is missing
    or its product list is falsy. *)
Definition linesOf (order : option Order.t) : list OrderLine :=
  match order with
  | Some o => orElse (Order.products o) []
  | None => []
  end.

(** More sample data: a clock that stands still, and orders. *)
Definition stopped : nat -> Date := fun _ => today.
Definition hdmiCable : Product :=
  mkProduct 2 7 5 "NORMAL" "HDMI Cable" None None None.
Definition orderOfTwoMelons : Order.t :=
  Order.mk 42 (Some [mkOrderLine watermelon; mkOrderLine watermelon]).
Definition emptyOrder : Order.t := Order.mk 7 (Some []).
Definition invalidDate : Date := mkDate None.
Definition quince : Product :=
  mkProduct 4 5 4 "SEASONAL" "Quince" None
    (Some (daysFromToday 10)) (Some (daysFromToday (-2))).
Definition figs : Product :=
  mkProduct 3 5 4 "SEASONAL" "Figs" None (Some (daysFromToday (-2))) None.

(* ------------------------------------------------------------------ *)
(** ** Ranges, stored rows and the late-bound handler *)

(** [Number.MAX_SAFE_INTEGER], that is 2^53 - 1. *)
Definition MAX_SAFE_INTEGER : Z := 9007199254740991.

(** [Number.isSafeInteger] on an integer.  The source computes
    [product.available - 1] on doubles; on a safe integer the result is
    exact, so that the subtraction of [decrementAvailable] above is the
    one of the source.  Beyond this range the source rounds, and the
    theorems that state the written value do not speak. *)
Definition isSafeInteger (z : Z) : Prop := Z.abs z <= MAX_SAFE_INTEGER.

(** [boundTime d t]: the instant [t] that a season bound [d] stands for in
    a comparison: the time value of the date, and the epoch for [null]. *)
Definition boundTime (d : option Date) (t : Z) : Prop :=
  (d = None /\ t = 0) \/ (exists x, d = Some x /\ getTime x = Some t).

(** [rowsWritten before after productId a l]: row for row, [after] is
    [before] in which every row of [productId] holds [a] as [available]
    and [l] as [leadTime] where they are given, and holds what it held
    in every other field; the rows of other products are as before. *)
Definition rowsWritten (before after : list Product) (productId : Z)
  (a l : option Z) : Prop :=
  List.length after = List.length before
  /\ forall i r,
       nth_error before i = Some r ->
       exists r',
         nth_error after i = Some r'
         /\ id r' = id r /\ type r' = type r /\ name r' = name r
         /\ expiryDate r' = expiryDate r
         /\ seasonStartDate r' = seasonStartDate r
         /\ seasonEndDate r' = seasonEndDate r
         /\ (id r = productId ->
             available r' = match a with Some v => v | None => available r end
             /\ leadTime r' = match l with Some v => v | None => leadTime r end)
         /\ (id r <> productId -> r' = r).

(** The body of [processExpirableProduct] with the method it reaches
    through [this.handleExpiredProduct] as a parameter. *)
Definition processExpirableProduct_with
  (handler : Product -> Date -> Task unit) (product : Product) (now : Date)
  : Task unit :=
  if (0 <? available product) && isNotExpired product now then
    decrementAvailable product
  else
    handler product now.

(** A dispatch consults its handler when what it does depends on the
    handler it is given. *)
Definition consults (dispatch : (Product -> Date -> Task unit) -> Task unit)
  : Prop :=
  exists h1 h2 w, dispatch h1 w <> dispatch h2 w.

(** A product whose restock date lies beyond the range of [Date]. *)
Definition truffle : Product :=
  mkProduct 1 200000000 0 "SEASONAL" "Truffle" None
    (Some (daysFromToday (-2))) (Some (daysFromToday 10)).

(* ------------------------------------------------------------------ *)
(** ** Proof automation *)

Create HintDb frame.

(** Open the methods of the service down to the collaborator calls. *)
Ltac open_service :=
  unfold perform, processOneUnit, processNormalProduct,
    processSeasonalProduct, processExpirableProduct,
    handleSeasonalProduct, handleExpiredProduct.

(** Split on the type tag of [p] as the [switch] does: three goals for
    the three [case] labels and one for any other tag, each with the
    string tests of the goal decided. *)
Ltac by_type p :=
  let En := fresh "Enormal" in
  let Es := fresh "Eseasonal" in
  let Ee := fresh "Eexpirable" in
  destruct (String.eqb_spec (type p) "NORMAL") as [En|En];
  [ rewrite ?En
  | destruct (String.eqb_spec (type p) "SEASONAL") as [Es|Es];
    [ rewrite ?Es
    | destruct (String.eqb_spec (type p) "EXPIRABLE") as [Ee|Ee];
      [ rewrite ?Ee | ] ] ];
  simpl.

(** Split on every guard that stands in the goal. *)
Ltac split_guards :=
  repeat match goal with
         | |- context [if ?c then _ else _] => destruct c eqn:?
         end.

(** Run the collaborator calls that are left. *)
Ltac run_calls :=
  unfold callsOf, exec, bind, ret, notifyDelay, decrementAvailable,
    updateProduct, ns.sendDelayNotification, ns.sendOutOfStockNotification,
    ns.sendExpirationNotification, logCall;
  simpl.

(* ------------------------------------------------------------------ *)
(** ** Runs of the test suite *)

Example run_notifyDelay :
  exec (notifyDelay (leadTime rj45Cable) rj45Cable) (tableOf rj45Cable)
  = mkWorld [rj45Cable]
      [DbUpdate 1 (patchLeadTime 15); SendDelayNotification 15 "RJ45 Cable"].
Proof. reflexivity. Qed.

Example run_normal_in_stock :
  exec (processOneUnit usbCable today) (tableOf usbCable)
  = mkWorld [mkProduct 1 15 1 "NORMAL" "USB Cable" None None None]
      [DbUpdate 1 (patchAvailable 1)].
Proof. reflexivity. Qed.

Example run_normal_out_of_stock :
  journal (exec (processOneUnit usbDongle today) (tableOf usbDongle))
  = [DbUpdate 1 (patchLeadTime 10); SendDelayNotification 10 "USB Dongle"].
Proof. reflexivity. Qed.

Example run_seasonal_in_season :
  map available (table (exec (processOneUnit watermelon today)
                              (tableOf watermelon))) = [2].
Proof. reflexivity. Qed.

Example run_seasonal_restock_too_late :
  exec (processOneUnit grapes today) (tableOf grapes)
  = mkWorld [grapes]
      [SendOutOfStockNotification "Grapes"; DbUpdate 1 (patchAvailable 0)].
Proof. reflexivity. Qed.

Example run_seasonal_before_season :
  exec (processOneUnit cherries today) (tableOf cherries)
  = mkWorld [cherries]
      [SendOutOfStockNotification "Cherries"; DbUpdate 1 (patchStock 4 5)].
Proof. reflexivity. Qed.

Example run_expirable_fresh :
  map available (table (exec (processOneUnit butter today)
                              (tableOf butter))) = [1].
Proof. reflexivity. Qed.

Example run_expirable_expired :
  exec (processOneUnit milk today) (tableOf milk)
  = mkWorld [mkProduct 1 15 0 "EXPIRABLE" "Milk"
               (Some (daysFromToday (-2))) None None]
      [SendExpirationNotification "Milk" (Some (daysFromToday (-2)));
       DbUpdate 1 (patchAvailable 0)].
Proof. reflexivity. Qed.

Example run_seasonal_restock_in_season :
  journal (exec (processOneUnit pumpkin today) (tableOf pumpkin))
  = [DbUpdate 1 (patchLeadTime 3); SendDelayNotification 3 "Pumpkin"].
Proof. reflexivity. Qed.

Example run_normal_nothing_left :
  processOneUnit soldOutAdapter today (tableOf soldOutAdapter)
  = (tt, tableOf soldOutAdapter).
Proof. reflexivity. Qed.

Example run_unknown_tag :
  processOneUnit giftCard today (tableOf giftCard) = (tt, tableOf giftCard).
Proof. reflexivity. Qed.

(** A restock date beyond the range of [Date] is an Invalid Date, which
    compares false with everything: the handler then goes on to its
    second test. *)
Example run_restock_date_out_of_range :
  let p := mkProduct 1 200000000 0 "SEASONAL" "Truffle" None
             (Some (daysFromToday (-2))) (Some (daysFromToday 10)) in
  getTime (expectedRestockDate p today) = None
  /\ journal (exec (handleSeasonalProduct p today) (tableOf p))
     = [DbUpdate 1 (patchLeadTime 200000000);
        SendDelayNotification 200000000 "Truffle"].
Proof. split; reflexivity. Qed.

(* ------------------------------------------------------------------ *)
(** ** Tasks and the table *)

Lemma exec_bind {A B : Type} (m : Task A) (k : Task B) (w : World) :
  exec (m ;; k) w = exec k (exec m w).
Proof. unfold exec, bind. destruct (m w) as [a w']. reflexivity. Qed.

Lemma exec_ret {A : Type} (a : A) (w : World) : exec (ret a) w = w.
Proof. reflexivity. Qed.

Lemma exec_updateProduct (productId : Z) (patch : Patch) (w : World) :
  exec (updateProduct productId patch) w
  = mkWorld (sqlUpdate productId patch (table w))
            (journal w ++ [DbUpdate productId patch]).
Proof. reflexivity. Qed.

Lemma sameIdentity_refl (r : Product) : sameIdentity r r.
Proof. unfold sameIdentity. repeat split. Qed.

Lemma applyPatch_sameIdentity (patch : Patch) (r : Product) :
  stockOnly patch -> sameIdentity r (applyPatch patch r).
Proof.
  intros (Hid & Hty & Hna & Hex & Hss & Hse).
  unfold sameIdentity, applyPatch; simpl.
  rewrite Hid, Hty, Hna, Hex, Hss, Hse. simpl. repeat split.
Qed.

#[local] Hint Resolve sameIdentity_refl applyPatch_sameIdentity : frame.

Section TableUpdate.

Variable productId : Z.
Variable patch : Patch.
Variable rows : list Product.

Lemma sqlUpdate_length :
  List.length (sqlUpdate productId patch rows) = List.length rows.
Proof. unfold sqlUpdate. apply length_map. Qed.

Lemma sqlUpdate_nth_error (i : nat) :
  nth_error (sqlUpdate productId patch rows) i
  = option_map (fun r => if id r =? productId then applyPatch patch r else r)
               (nth_error rows i).
Proof. unfold sqlUpdate. apply nth_error_map. Qed.

Lemma sqlUpdate_In (r' : Product) :
  In r' (sqlUpdate productId patch rows) ->
  exists r, In r rows /\
    r' = (if id r =? productId then applyPatch patch r else r).
Proof.
  unfold sqlUpdate. rewrite in_map_iff.
  intros [r [Hr Hin]]. exists r. split; [assumption | symmetry; assumption].
Qed.

(** A patch that agrees with every row it reaches leaves the table as it
    is. *)
Lemma sqlUpdate_same :
  (forall r, In r rows -> id r = productId -> applyPatch patch r = r) ->
  sqlUpdate productId patch rows = rows.
Proof.
  intros H. unfold sqlUpdate. rewrite <- (map_id rows) at 2.
  apply map_ext_in. intros r Hin.
  destruct (id r =? productId) eqn:E; [| reflexivity].
  apply Z.eqb_eq in E. auto.
Qed.

Hypothesis patch_keeps_id : set_id patch = None.

(** Writing the same patch a second time changes nothing. *)
Lemma sqlUpdate_idempotent :
  sqlUpdate productId patch (sqlUpdate productId patch rows)
  = sqlUpdate productId patch rows.
Proof.
  unfold sqlUpdate. rewrite map_map. apply map_ext.
  intros r. destruct (id r =? productId) eqn:E.
  - assert (Hsame : id (applyPatch patch r) = id r).
    { unfold applyPatch; simpl. rewrite patch_keeps_id. reflexivity. }
    rewrite Hsame, E. clear patch_keeps_id.
    destruct patch as [pi pl pa pt pn pe ps pd].
    unfold applyPatch; simpl.
    destruct pi, pl, pa, pt, pn, pe, ps, pd; reflexivity.
  - rewrite E. reflexivity.
Qed.

Hypothesis patch_stockOnly : stockOnly patch.

(** A stock-only update keeps every row in place and touches only the
    rows of its product. *)
Lemma sqlUpdate_frame (i : nat) (r : Product) :
  nth_error rows i = Some r ->
  exists r',
    nth_error (sqlUpdate productId patch rows) i = Some r'
    /\ sameIdentity r r'
    /\ (id r <> productId -> r' = r).
Proof.
  intros Hr. rewrite sqlUpdate_nth_error, Hr. simpl.
  destruct (id r =? productId) eqn:E.
  - exists (applyPatch patch r). split; [reflexivity | split].
    + auto with frame.
    + intros Hne. apply Z.eqb_eq in E. contradiction.
  - exists r. split; [reflexivity | split].
    + auto with frame.
    + reflexivity.
Qed.

End TableUpdate.

(** After a write of [available] on [productId], every row with that id
    carries the written value. *)
Lemma sqlUpdate_available (productId a : Z) (rows : list Product)
  (r : Product) :
  In r (sqlUpdate productId (patchAvailable a) rows) ->
  id r = productId -> available r = a.
Proof.
  intros Hin Hid. apply sqlUpdate_In in Hin. destruct Hin as [r0 [_ Hr]].
  destruct (id r0 =? productId) eqn:E.
  - subst r. reflexivity.
  - subst r. apply Z.eqb_neq in E. contradiction.
Qed.

(** Writing back a lead time that the stored rows already have leaves the
    table as it is; so does writing back both stock fields. *)
Lemma sqlUpdate_leadTime_same (productId l : Z) (rows : list Product) :
  (forall r, In r rows -> id r = productId -> leadTime r = l) ->
  sqlUpdate productId (patchLeadTime l) rows = rows.
Proof.
  intros H. apply sqlUpdate_same. intros r Hin Hid.
  specialize (H r Hin Hid). destruct r; simpl in *.
  unfold applyPatch; simpl. subst. reflexivity.
Qed.

Lemma sqlUpdate_stock_same (productId a l : Z) (rows : list Product) :
  (forall r, In r rows -> id r = productId ->
             available r = a /\ leadTime r = l) ->
  sqlUpdate productId (patchStock a l) rows = rows.
Proof.
  intros H. apply sqlUpdate_same. intros r Hin Hid.
  destruct (H r Hin Hid) as [Ha Hl]. destruct r; simpl in *.
  unfold applyPatch; simpl. subst. reflexivity.
Qed.

(* ------------------------------------------------------------------ *)
(** ** The guards *)

(** [a > b] between two dates holds when both are valid and the time
    value of [a] is the larger one. *)
Lemma js_gt_dates (a b : Date) :
  js_gt (Some a) (Some b) = true
  <-> exists ta tb, getTime a = Some ta /\ getTime b = Some tb /\ tb < ta.
Proof.
  unfold js_gt, num_gt, toNumber. destruct a as [[ta|]], b as [[tb|]]; simpl.
  - rewrite Z.ltb_lt. split.
    + intros H. exists ta, tb. auto.
    + intros (x & y & Hx & Hy & H). congruence.
  - split; [discriminate | intros (x & y & _ & Hy & _); discriminate].
  - split; [discriminate | intros (x & y & Hx & _); discriminate].
  - split; [discriminate | intros (x & y & Hx & _); discriminate].
Qed.

(** Against [null], which counts as [+0], a date is larger when it is
    valid and after the epoch, and smaller when it is valid and before. *)
Lemma js_gt_null_r (a : Date) :
  js_gt (Some a) None = true <-> exists ta, getTime a = Some ta /\ 0 < ta.
Proof.
  unfold js_gt, num_gt, toNumber. destruct a as [[ta|]]; simpl.
  - rewrite Z.ltb_lt. split.
    + intros H. exists ta. auto.
    + intros (x & Hx & H). congruence.
  - split; [discriminate | intros (x & Hx & _); discriminate].
Qed.

Lemma js_gt_null_l (b : Date) :
  js_gt None (Some b) = true <-> exists tb, getTime b = Some tb /\ tb < 0.
Proof.
  unfold js_gt, num_gt, toNumber. destruct b as [[tb|]]; simpl.
  - rewrite Z.ltb_lt. split.
    + intros H. exists tb. auto.
    + intros (x & Hx & H). congruence.
  - split; [discriminate | intros (x & Hx & _); discriminate].
Qed.

Section Guards.

Variable p : Product.
Variable now : Date.

Lemma isWithinSeason_spec : isWithinSeason p now = true <-> withinSeason p now.
Proof.
  unfold isWithinSeason, withinSeason, js_gt, js_lt, num_gt, toNumber, truthy.
  split.
  - destruct (seasonStartDate p) as [[ts]|], (seasonEndDate p) as [[te]|];
      simpl; try discriminate.
    destruct now as [tn]; simpl.
    destruct ts as [ts|], tn as [tn|], te as [te|]; simpl;
      try discriminate; try (rewrite andb_false_r; discriminate).
    intros H. apply andb_true_iff in H. destruct H as [H1 H2].
    apply Z.ltb_lt in H1. apply Z.ltb_lt in H2.
    exists (mkDate (Some ts)), (mkDate (Some te)), ts, tn, te.
    repeat split; assumption.
  - intros (s & e & ts & tn & te & Hs & He & Hts & Htn & Hte & Hlo & Hhi).
    rewrite Hs, He, Hts, Htn, Hte. simpl.
    apply andb_true_iff. split; apply Z.ltb_lt; assumption.
Qed.

Lemma absent_bound_not_withinSeason :
  seasonStartDate p = None \/ seasonEndDate p = None -> ~ withinSeason p now.
Proof.
  intros [H|H] (s & e & ts & tn & te & Hs & He & _); congruence.
Qed.

Lemma on_bound_not_withinSeason :
  sameInstant (seasonStartDate p) now \/ sameInstant (seasonEndDate p) now ->
  ~ withinSeason p now.
Proof.
  intros [(x & t & Hx & Ht & Hn)|(x & t & Hx & Ht & Hn)]
         (s & e & ts & tn & te & Hs & He & Hts & Htn & Hte & Hlo & Hhi).
  - assert (s = x) by congruence. subst s.
    assert (ts = t) by congruence. assert (tn = t) by congruence. lia.
  - assert (e = x) by congruence. subst e.
    assert (te = t) by congruence. assert (tn = t) by congruence. lia.
Qed.

(** The guard of the SEASONAL case, read as a proposition. *)
Lemma seasonal_guard_spec :
  isWithinSeason p now && (0 <? available p) = true
  <-> withinSeason p now /\ 0 < available p.
Proof.
  rewrite andb_true_iff, Z.ltb_lt, isWithinSeason_spec. tauto.
Qed.

Lemma seasonal_guard_false :
  ~ (withinSeason p now /\ 0 < available p) ->
  isWithinSeason p now && (0 <? available p) = false.
Proof.
  intros H. destruct (isWithinSeason p now && (0 <? available p)) eqn:G;
    [| reflexivity].
  exfalso. apply H. apply seasonal_guard_spec. assumption.
Qed.

Lemma isNotExpired_spec : isNotExpired p now = true <-> notExpired p now.
Proof.
  unfold isNotExpired, notExpired, js_gt, num_gt, toNumber, truthy.
  split.
  - destruct (expiryDate p) as [[te]|]; simpl; try discriminate.
    destruct now as [tn]; simpl.
    destruct te as [te|], tn as [tn|]; try discriminate.
    intros H. apply Z.ltb_lt in H.
    exists (mkDate (Some te)), te, tn. repeat split; assumption.
  - intros (e & te & tn & He & Hte & Htn & Hlt).
    rewrite He, Hte, Htn. simpl. apply Z.ltb_lt. assumption.
Qed.

Lemma absent_expiry_not_notExpired : expiryDate p = None -> ~ notExpired p now.
Proof. intros H (e & te & tn & He & _). congruence. Qed.

Lemma expiring_now_not_notExpired :
  sameInstant (expiryDate p) now -> ~ notExpired p now.
Proof.
  intros (x & t & Hx & Ht & Hn) (e & te & tn & He & Hte & Htn & Hlt).
  assert (e = x) by congruence. subst e.
  assert (te = t) by congruence. assert (tn = t) by congruence. lia.
Qed.

(** The guard of the EXPIRABLE case, read as a proposition. *)
Lemma expirable_guard_spec :
  (0 <? available p) && isNotExpired p now = true
  <-> 0 < available p /\ notExpired p now.
Proof.
  rewrite andb_true_iff, Z.ltb_lt, isNotExpired_spec. tauto.
Qed.

Lemma expirable_guard_false :
  ~ (0 < available p /\ notExpired p now) ->
  (0 <? available p) && isNotExpired p now = false.
Proof.
  intros H. destruct ((0 <? available p) && isNotExpired p now) eqn:G;
    [| reflexivity].
  exfalso. apply H. apply expirable_guard_spec. assumption.
Qed.

End Guards.

(* ------------------------------------------------------------------ *)
(** ** Dispatch *)

Lemma switch_NORMAL (p : Product) (now : Date) :
  type p = "NORMAL" -> processOneUnit p now = processNormalProduct p.
Proof. intros H. unfold processOneUnit. rewrite H. reflexivity. Qed.

Lemma switch_SEASONAL (p : Product) (now : Date) :
  type p = "SEASONAL" -> processOneUnit p now = processSeasonalProduct p now.
Proof. intros H. unfold processOneUnit. rewrite H. reflexivity. Qed.

Lemma switch_EXPIRABLE (p : Product) (now : Date) :
  type p = "EXPIRABLE" -> processOneUnit p now = processExpirableProduct p now.
Proof. intros H. unfold processOneUnit. rewrite H. reflexivity. Qed.

Lemma switch_default (p : Product) (now : Date) :
  knownType (type p) = false -> processOneUnit p now = ret tt.
Proof.
  unfold knownType, processOneUnit. intros H.
  apply orb_false_iff in H. destruct H as [H He].
  apply orb_false_iff in H. destruct H as [Hn Hs].
  rewrite Hn, Hs, He. reflexivity.
Qed.

Lemma knownType_cases (t : string) :
  knownType t = true <-> t = "NORMAL" \/ t = "SEASONAL" \/ t = "EXPIRABLE".
Proof.
  unfold knownType. rewrite !orb_true_iff, !String.eqb_eq. tauto.
Qed.

(** The calls of an operation do not depend on the world it starts in:
    the service never reads the table. *)
Lemma journal_perform (op : Operation) (w : World) :
  journal (exec (perform op) w) = journal w ++ callsOf (perform op).
Proof.
  destruct op; open_service; split_guards; run_calls;
    rewrite ?app_nil_r, <- ?app_assoc; reflexivity.
Qed.

Lemma journal_processOneUnit (p : Product) (now : Date) (w : World) :
  journal (exec (processOneUnit p now) w)
  = journal w ++ callsOf (processOneUnit p now).
Proof. exact (journal_perform (ProcessOneUnit p now) w). Qed.

Lemma journal_handleSeasonalProduct (p : Product) (now : Date) (w : World) :
  journal (exec (handleSeasonalProduct p now) w)
  = journal w ++ callsOf (handleSeasonalProduct p now).
Proof. exact (journal_perform (HandleSeasonalProduct p now) w). Qed.

(** Under its guard, a unit purchase is the bare decrement. *)
Lemma takesDecrement_run (p : Product) (now : Date) :
  takesDecrement p now = true -> processOneUnit p now = decrementAvailable p.
Proof.
  unfold takesDecrement. open_service. by_type p;
    split_guards; simpl; intros H;
    rewrite ?andb_false_r in H; try discriminate; reflexivity.
Qed.

(** Outside of it, the calls made are never the bare decrement. *)
Lemma takesDecrement_only (p : Product) (now : Date) :
  takesDecrement p now = false ->
  callsOf (processOneUnit p now)
  <> [DbUpdate (id p) (patchAvailable (available p - 1))].
Proof.
  unfold takesDecrement. open_service. by_type p;
    split_guards; simpl; intros H;
    rewrite ?andb_true_r in H; try discriminate; run_calls; discriminate.
Qed.

(* ------------------------------------------------------------------ *)
(** ** What an update stores *)

(** The rows after an update that sets [available] and [leadTime] where
    they are given, and nothing else. *)
Lemma sqlUpdate_rowsWritten (productId : Z) (a l : option Z)
  (rows : list Product) :
  rowsWritten rows
    (sqlUpdate productId (mkPatch None l a None None None None None) rows)
    productId a l.
Proof.
  split; [apply sqlUpdate_length |].
  intros i r Hr. rewrite sqlUpdate_nth_error, Hr. simpl.
  destruct (id r =? productId) eqn:E.
  - eexists. split; [reflexivity |].
    unfold applyPatch; simpl. repeat (split; [reflexivity |]).
    split.
    + intros _. destruct a, l; split; reflexivity.
    + intros Hne. apply Z.eqb_eq in E. contradiction.
  - exists r. split; [reflexivity |].
    repeat (split; [reflexivity |]).
    split; [| reflexivity].
    intros He. apply Z.eqb_neq in E. contradiction.
Qed.

Lemma rowsWritten_updateProduct (productId : Z) (a l : option Z) (w : World) :
  rowsWritten (table w)
    (table (exec (updateProduct productId
                    (mkPatch None l a None None None None None)) w))
    productId a l.
Proof. rewrite exec_updateProduct. simpl. apply sqlUpdate_rowsWritten. Qed.

(** The method body of [processExpirableProduct] is the dispatch on the
    handler of the class. *)
Lemma processExpirableProduct_late_bound :
  processExpirableProduct = processExpirableProduct_with handleExpiredProduct.
Proof. reflexivity. Qed.

(** The dispatch consults its handler exactly when its guard fails. *)
Lemma consults_iff_guard_fails (p : Product) (now : Date) :
  consults (fun handler => processExpirableProduct_with handler p now)
  <-> (0 <? available p) && isNotExpired p now = false.
Proof.
  unfold consults, processExpirableProduct_with. split.
  - intros (h1 & h2 & w & Hne).
    destruct ((0 <? available p) && isNotExpired p now); [| reflexivity].
    exfalso. apply Hne. reflexivity.
  - intros G. rewrite G.
    exists (fun _ _ => ret tt),
           (fun _ _ => ns.sendOutOfStockNotification "probe"),
           (mkWorld [] []).
    discriminate.
Qed.

(* ------------------------------------------------------------------ *)
(** ** Two purchases on the same in-memory record *)

(** Whatever the two clock readings, two decrements computed from the same
    record write the same value. *)
Lemma decrementAvailable_twice (p : Product) (w : World) :
  table (exec (decrementAvailable p) (exec (decrementAvailable p) w))
  = table (exec (decrementAvailable p) w).
Proof.
  unfold decrementAvailable. rewrite !exec_updateProduct. simpl.
  apply sqlUpdate_idempotent. reflexivity.
Qed.

(** C1, as stated, fails on the first row of the test suite: the USB cable
    is stored with 2 units, both calls take the decrement branch, and the
    table holds 1 unit after the second call, not 0. *)
Lemma processOneUnit_twice_usbCable :
  takesDecrement usbCable today = true /\
  map available
    (table (exec (processOneUnit usbCable today ;;
                  processOneUnit usbCable today)
                 (tableOf usbCable)))
  = [available usbCable - 1] /\
  ~ (forall r,
       In r (table (exec (processOneUnit usbCable today ;;
                          processOneUnit usbCable today)
                         (tableOf usbCable))) ->
       id r = id usbCable -> available r = available usbCable - 2).
Proof.
  split; [reflexivity | split; [reflexivity |]].
  intros H.
  specialize (H (mkProduct 1 15 1 "NORMAL" "USB Cable" None None None)).
  simpl in H. specialize (H (or_introl eq_refl) eq_refl). discriminate H.
Qed.

(** C1, amended.  [processOneUnit] never changes the record it is given,
    so a second call on the same record at the same [now] takes the
    decrement branch again and issues the same write: the journal gains
    two identical updates, the table after the second call is the table
    after the first, and every stored row of the product holds the
    record's [available] minus 1.  The record's [available] is a safe
    integer, so that the value written is the one the source computes. *)
Theorem processOneUnit_twice_same_record
  (p : Product) (now : Date) (w : World) :
  takesDecrement p now = true ->
  isSafeInteger (available p) ->
  journal (exec (processOneUnit p now ;; processOneUnit p now) w)
  = journal w ++ [DbUpdate (id p) (patchAvailable (available p - 1));
                  DbUpdate (id p) (patchAvailable (available p - 1))]
  /\ table (exec (processOneUnit p now ;; processOneUnit p now) w)
     = table (exec (processOneUnit p now) w)
  /\ (forall r,
        In r (table (exec (processOneUnit p now ;; processOneUnit p now) w)) ->
        id r = id p -> available r = available p - 1)
  /\ rowsWritten (table w)
       (table (exec (processOneUnit p now ;; processOneUnit p now) w))
       (id p) (Some (available p - 1)) None.
Proof.
  intros H _. rewrite exec_bind, (takesDecrement_run p now H).
  split; [| split; [| split]].
  - unfold decrementAvailable. rewrite !exec_updateProduct. simpl.
    rewrite <- app_assoc. reflexivity.
  - apply decrementAvailable_twice.
  - intros r Hin Hid. rewrite decrementAvailable_twice in Hin.
    unfold decrementAvailable in Hin. rewrite exec_updateProduct in Hin.
    simpl in Hin. eapply sqlUpdate_available; eassumption.
  - rewrite decrementAvailable_twice.
    exact (rowsWritten_updateProduct (id p) (Some (available p - 1)) None w).
Qed.

Lemma processOneUnit_twice_same_record_witness :
  takesDecrement watermelon today = true /\
  isSafeInteger (available watermelon) /\
  table (exec (processOneUnit watermelon today ;;
               processOneUnit watermelon today)
              (tableOf watermelon))
  = table (exec (processOneUnit watermelon today) (tableOf watermelon)).
Proof.
  assert (Hs : isSafeInteger (available watermelon))
    by (vm_compute; discriminate).
  split; [reflexivity | split; [exact Hs |]].
  exact (proj1 (proj2 (processOneUnit_twice_same_record
                         watermelon today (tableOf watermelon) eq_refl Hs))).
Defined.

(* ------------------------------------------------------------------ *)
(** ** NORMAL products *)

(** C2.  A NORMAL product with stock is decremented and nobody is
    notified: the rows of the product hold the record's [available] minus
    1 (a safe integer, so that the value is the one the source computes)
    and nothing else is changed.  Without stock and with a positive lead
    time, the lead time of the record is written to the rows of the
    product and the delay notification is sent with that lead time and
    the name, so a table that agrees with the record is left as it is.
    Otherwise nothing is written and nobody is notified. *)
Theorem processOneUnit_normal (p : Product) (now : Date) (w : World) :
  type p = "NORMAL" ->
  (0 < available p -> isSafeInteger (available p) ->
     table (exec (processOneUnit p now) w)
     = sqlUpdate (id p) (patchAvailable (available p - 1)) (table w)
     /\ journal (exec (processOneUnit p now) w)
        = journal w ++ [DbUpdate (id p) (patchAvailable (available p - 1))]
     /\ rowsWritten (table w) (table (exec (processOneUnit p now) w))
          (id p) (Some (available p - 1)) None)
  /\ (available p <= 0 -> 0 < leadTime p ->
        table (exec (processOneUnit p now) w)
        = sqlUpdate (id p) (patchLeadTime (leadTime p)) (table w)
        /\ journal (exec (processOneUnit p now) w)
           = journal w ++ [DbUpdate (id p) (patchLeadTime (leadTime p));
                           SendDelayNotification (leadTime p) (name p)]
        /\ rowsWritten (table w) (table (exec (processOneUnit p now) w))
             (id p) None (Some (leadTime p))
        /\ ((forall r, In r (table w) -> id r = id p ->
                       leadTime r = leadTime p) ->
            table (exec (processOneUnit p now) w) = table w))
  /\ (available p <= 0 -> leadTime p <= 0 ->
        exec (processOneUnit p now) w = w).
Proof.
  intros Hty. rewrite (switch_NORMAL p now Hty).
  unfold processNormalProduct.
  split; [| split].
  - intros Ha _. apply Z.ltb_lt in Ha. rewrite Ha.
    split; [reflexivity | split; [reflexivity |]].
    exact (rowsWritten_updateProduct (id p) (Some (available p - 1)) None w).
  - intros Ha Hl. apply Z.ltb_ge in Ha. apply Z.ltb_lt in Hl.
    rewrite Ha, Hl. run_calls.
    split; [reflexivity | split; [| split]].
    + rewrite <- app_assoc. reflexivity.
    + exact (sqlUpdate_rowsWritten (id p) None (Some (leadTime p)) (table w)).
    + apply sqlUpdate_leadTime_same.
  - intros Ha Hl. apply Z.ltb_ge in Ha. apply Z.ltb_ge in Hl.
    rewrite Ha, Hl. reflexivity.
Qed.

Lemma processOneUnit_normal_witness :
  type usbCable = "NORMAL" /\
  0 < available usbCable /\
  isSafeInteger (available usbCable) /\
  rowsWritten (table (tableOf usbCable))
    (table (exec (processOneUnit usbCable today) (tableOf usbCable)))
    (id usbCable) (Some (available usbCable - 1)) None.
Proof.
  assert (Ha : 0 < available usbCable) by reflexivity.
  assert (Hs : isSafeInteger (available usbCable))
    by (vm_compute; discriminate).
  split; [reflexivity | split; [exact Ha | split; [exact Hs |]]].
  exact (proj2 (proj2 (proj1 (processOneUnit_normal
                                usbCable today (tableOf usbCable) eq_refl)
                             Ha Hs))).
Defined.

(* ------------------------------------------------------------------ *)
(** ** SEASONAL products *)

(** Every path of the seasonal-restock handler notifies somebody. *)
Lemma handleSeasonalProduct_notifies (p : Product) (now : Date) :
  exists c1 c2, callsOf (handleSeasonalProduct p now) = [c1; c2]
                /\ (isUpdate c1 = false \/ isUpdate c2 = false).
Proof.
  unfold handleSeasonalProduct. split_guards; run_calls;
    eexists; eexists; (split; [reflexivity |]); simpl; auto.
Qed.

(** C3.  A SEASONAL product is decremented when both season bounds are
    present, [now] lies strictly between them and there is stock.  In
    every other case the call is the seasonal-restock handler, whose calls
    are never the bare decrement.  A missing bound, or a [now] that falls
    on a bound, puts the product outside its season, and the call then
    returns through the handler. *)
Theorem processOneUnit_seasonal (p : Product) (now : Date) (w : World) :
  type p = "SEASONAL" ->
  (withinSeason p now /\ 0 < available p ->
     table (exec (processOneUnit p now) w)
     = sqlUpdate (id p) (patchAvailable (available p - 1)) (table w)
     /\ journal (exec (processOneUnit p now) w)
        = journal w ++ [DbUpdate (id p) (patchAvailable (available p - 1))])
  /\ (~ (withinSeason p now /\ 0 < available p) ->
        processOneUnit p now w = handleSeasonalProduct p now w
        /\ journal (exec (processOneUnit p now) w)
           <> journal w ++ [DbUpdate (id p) (patchAvailable (available p - 1))])
  /\ (seasonStartDate p = None \/ seasonEndDate p = None
      \/ sameInstant (seasonStartDate p) now
      \/ sameInstant (seasonEndDate p) now ->
        isWithinSeason p now = false
        /\ processOneUnit p now w = handleSeasonalProduct p now w).
Proof.
  intros Hty. rewrite (switch_SEASONAL p now Hty).
  unfold processSeasonalProduct.
  assert (Hout : journal (exec (handleSeasonalProduct p now) w)
                 <> journal w
                    ++ [DbUpdate (id p) (patchAvailable (available p - 1))]).
  { rewrite (journal_handleSeasonalProduct p now w).
    destruct (handleSeasonalProduct_notifies p now) as (c1 & c2 & Hc & _).
    rewrite Hc. intros Heq. apply app_inv_head in Heq. discriminate Heq. }
  split; [| split].
  - intros H. apply seasonal_guard_spec in H. rewrite H. split; reflexivity.
  - intros H. apply seasonal_guard_false in H. rewrite H.
    split; [reflexivity | exact Hout].
  - intros H.
    assert (Hn : ~ withinSeason p now).
    { destruct H as [H|[H|[H|H]]].
      - apply absent_bound_not_withinSeason. auto.
      - apply absent_bound_not_withinSeason. auto.
      - apply on_bound_not_withinSeason. auto.
      - apply on_bound_not_withinSeason. auto. }
    destruct (isWithinSeason p now) eqn:G.
    + exfalso. apply Hn. apply isWithinSeason_spec. assumption.
    + split; reflexivity.
Qed.

Lemma processOneUnit_seasonal_witness :
  type watermelon = "SEASONAL" /\
  journal (exec (processOneUnit watermelon today) (tableOf watermelon))
  = [DbUpdate 1 (patchAvailable 2)].
Proof.
  split.
  - reflexivity.
  - refine (proj2 (proj1 (processOneUnit_seasonal
             watermelon today (tableOf watermelon) eq_refl) _)).
    split.
    + exists (daysFromToday (-2)), (daysFromToday 10),
        (noon + -2 * DAY_IN_MS), noon, (noon + 10 * DAY_IN_MS).
      repeat split; reflexivity.
    + reflexivity.
Defined.

Lemma boundTime_toNumber (d : option Date) (t : Z) :
  boundTime d t -> toNumber d = Some t.
Proof.
  intros [[-> ->]|(x & -> & Hx)]; [reflexivity | exact Hx].
Qed.

(** C4, as stated, fails when [now] plus [leadTime] days is beyond the
    range of [Date]: with a lead time of 200000000 days that instant is
    after the season end, yet the restock date is an Invalid Date, which
    compares false, and the handler ends in the delay notification
    without any out-of-stock notification. *)
Lemma handleSeasonalProduct_truffle_out_of_range :
  getTime today = Some noon
  /\ boundTime (seasonEndDate truffle) (noon + 10 * 86400000)
  /\ noon + 10 * 86400000 < noon + leadTime truffle * 86400000
  /\ getTime (expectedRestockDate truffle today) = None
  /\ journal (exec (handleSeasonalProduct truffle today) (tableOf truffle))
     = [DbUpdate 1 (patchLeadTime 200000000);
        SendDelayNotification 200000000 "Truffle"]
  /\ journal (exec (handleSeasonalProduct truffle today) (tableOf truffle))
     <> [SendOutOfStockNotification "Truffle"; DbUpdate 1 (patchAvailable 0)].
Proof.
  split; [reflexivity | split; [| split; [reflexivity | split; [reflexivity |]]]].
  - right. exists (daysFromToday 10). split; reflexivity.
  - split; [reflexivity | discriminate].
Qed.

(** C4, amended.  Let [now] be a valid date, let each season bound stand
    for its instant (the epoch when it is [null]), and let [now] plus
    [leadTime] days be within the range of [Date]; that instant is then
    the restock date the handler computes.  When it is after the season
    end, the handler sends the out-of-stock notification with the name
    and writes [available = 0] to the rows of the product.  Otherwise,
    when the season start is after [now], it sends the out-of-stock
    notification and writes the record's [available] and [leadTime] to
    those rows.  Otherwise it is [notifyDelay] on the record's lead time:
    that lead time is written and the delay notification sent.  In each
    case every other field and every other row is left as it was. *)
Theorem handleSeasonalProduct_rule
  (p : Product) (now : Date) (w : World) (tn ts te : Z) :
  getTime now = Some tn ->
  boundTime (seasonStartDate p) ts ->
  boundTime (seasonEndDate p) te ->
  Z.abs (tn + leadTime p * 86400000) <= MAX_TIME ->
  getTime (expectedRestockDate p now) = Some (tn + leadTime p * 86400000)
  /\ (te < tn + leadTime p * 86400000 ->
        journal (exec (handleSeasonalProduct p now) w)
        = journal w ++ [SendOutOfStockNotification (name p);
                        DbUpdate (id p) (patchAvailable 0)]
        /\ rowsWritten (table w) (table (exec (handleSeasonalProduct p now) w))
             (id p) (Some 0) None)
  /\ (tn + leadTime p * 86400000 <= te -> tn < ts ->
        journal (exec (handleSeasonalProduct p now) w)
        = journal w ++ [SendOutOfStockNotification (name p);
                        DbUpdate (id p)
                          (patchStock (available p) (leadTime p))]
        /\ rowsWritten (table w) (table (exec (handleSeasonalProduct p now) w))
             (id p) (Some (available p)) (Some (leadTime p))
        /\ ((forall r, In r (table w) -> id r = id p ->
                       available r = available p /\ leadTime r = leadTime p) ->
            table (exec (handleSeasonalProduct p now) w) = table w))
  /\ (tn + leadTime p * 86400000 <= te -> ts <= tn ->
        handleSeasonalProduct p now w = notifyDelay (leadTime p) p w
        /\ journal (exec (handleSeasonalProduct p now) w)
           = journal w ++ [DbUpdate (id p) (patchLeadTime (leadTime p));
                           SendDelayNotification (leadTime p) (name p)]
        /\ rowsWritten (table w) (table (exec (handleSeasonalProduct p now) w))
             (id p) None (Some (leadTime p))).
Proof.
  intros Hn Hs He Hr.
  apply boundTime_toNumber in Hs. apply boundTime_toNumber in He.
  assert (Hd : getTime (expectedRestockDate p now)
               = Some (tn + leadTime p * 86400000)).
  { unfold expectedRestockDate. rewrite Hn. simpl.
    change DAY_IN_MS with 86400000.
    apply Z.leb_le in Hr. rewrite Hr. reflexivity. }
  assert (Hend : js_gt (Some (expectedRestockDate p now)) (seasonEndDate p)
                 = (te <? tn + leadTime p * 86400000)).
  { unfold js_gt. simpl. rewrite Hd, He. reflexivity. }
  assert (Hstart : js_gt (seasonStartDate p) (Some now) = (tn <? ts)).
  { unfold js_gt. simpl. rewrite Hs, Hn. reflexivity. }
  split; [exact Hd |].
  unfold handleSeasonalProduct. rewrite Hend, Hstart.
  split; [| split].
  - intros H. apply Z.ltb_lt in H. rewrite H. run_calls. split.
    + rewrite <- app_assoc. reflexivity.
    + exact (sqlUpdate_rowsWritten (id p) (Some 0) None (table w)).
  - intros H1 H2. apply Z.ltb_ge in H1. apply Z.ltb_lt in H2.
    rewrite H1, H2. run_calls. split; [| split].
    + rewrite <- app_assoc. reflexivity.
    + exact (sqlUpdate_rowsWritten (id p) (Some (available p))
               (Some (leadTime p)) (table w)).
    + apply sqlUpdate_stock_same.
  - intros H1 H2. apply Z.ltb_ge in H1. apply Z.ltb_ge in H2.
    rewrite H1, H2. split; [reflexivity |]. run_calls. split.
    + rewrite <- app_assoc. reflexivity.
    + exact (sqlUpdate_rowsWritten (id p) None (Some (leadTime p)) (table w)).
Qed.

Lemma handleSeasonalProduct_rule_witness :
  getTime today = Some noon /\
  boundTime (seasonStartDate cherries) (noon + 20 * 86400000) /\
  boundTime (seasonEndDate cherries) (noon + 60 * 86400000) /\
  Z.abs (noon + leadTime cherries * 86400000) <= MAX_TIME /\
  journal (exec (handleSeasonalProduct cherries today) (tableOf cherries))
  = [SendOutOfStockNotification "Cherries"; DbUpdate 1 (patchStock 4 5)].
Proof.
  assert (Hs : boundTime (seasonStartDate cherries) (noon + 20 * 86400000)).
  { right. exists (daysFromToday 20). split; reflexivity. }
  assert (He : boundTime (seasonEndDate cherries) (noon + 60 * 86400000)).
  { right. exists (daysFromToday 60). split; reflexivity. }
  assert (Hr : Z.abs (noon + leadTime cherries * 86400000) <= MAX_TIME)
    by (vm_compute; discriminate).
  split; [reflexivity | split; [exact Hs | split; [exact He |]]].
  split; [exact Hr |].
  refine (proj1 (proj1 (proj2 (proj2 (handleSeasonalProduct_rule
            cherries today (tableOf cherries) noon _ _
            eq_refl Hs He Hr))) _ _)).
  - vm_compute. discriminate.
  - reflexivity.
Defined.

(* ------------------------------------------------------------------ *)
(** ** EXPIRABLE products *)

(** C5.  An EXPIRABLE product with stock whose expiry date is present and
    strictly after [now] is decremented and nobody is notified: the rows
    of the product hold the record's [available] minus 1 (a safe integer,
    so that the value is the one the source computes).  In every other
    case, among them a missing expiry date and an expiry date equal to
    [now], the expiration notification is sent with the name and the
    stored expiry date, and the rows of the product hold [available = 0].
    In both cases every other field and every other row is as before. *)
Theorem processOneUnit_expirable (p : Product) (now : Date) (w : World) :
  type p = "EXPIRABLE" ->
  (0 < available p /\ notExpired p now -> isSafeInteger (available p) ->
     table (exec (processOneUnit p now) w)
     = sqlUpdate (id p) (patchAvailable (available p - 1)) (table w)
     /\ journal (exec (processOneUnit p now) w)
        = journal w ++ [DbUpdate (id p) (patchAvailable (available p - 1))]
     /\ rowsWritten (table w) (table (exec (processOneUnit p now) w))
          (id p) (Some (available p - 1)) None)
  /\ (~ (0 < available p /\ notExpired p now) ->
        table (exec (processOneUnit p now) w)
        = sqlUpdate (id p) (patchAvailable 0) (table w)
        /\ journal (exec (processOneUnit p now) w)
           = journal w ++ [SendExpirationNotification (name p) (expiryDate p);
                           DbUpdate (id p) (patchAvailable 0)]
        /\ rowsWritten (table w) (table (exec (processOneUnit p now) w))
             (id p) (Some 0) None)
  /\ (expiryDate p = None \/ sameInstant (expiryDate p) now ->
        ~ (0 < available p /\ notExpired p now)).
Proof.
  intros Hty. rewrite (switch_EXPIRABLE p now Hty).
  unfold processExpirableProduct, handleExpiredProduct.
  split; [| split].
  - intros H _. apply expirable_guard_spec in H. rewrite H.
    split; [reflexivity | split; [reflexivity |]].
    exact (rowsWritten_updateProduct (id p) (Some (available p - 1)) None w).
  - intros H. apply expirable_guard_false in H. rewrite H. run_calls.
    split; [reflexivity | split].
    + rewrite <- app_assoc. reflexivity.
    + exact (sqlUpdate_rowsWritten (id p) (Some 0) None (table w)).
  - intros [H|H] [_ Hn]; revert Hn.
    + apply absent_expiry_not_notExpired. assumption.
    + apply expiring_now_not_notExpired. assumption.
Qed.

Lemma processOneUnit_expirable_witness :
  type butter = "EXPIRABLE" /\
  (0 < available butter /\ notExpired butter today) /\
  isSafeInteger (available butter) /\
  rowsWritten (table (tableOf butter))
    (table (exec (processOneUnit butter today) (tableOf butter)))
    (id butter) (Some (available butter - 1)) None.
Proof.
  assert (Hg : 0 < available butter /\ notExpired butter today).
  { split; [reflexivity |].
    exists (daysFromToday 10), (noon + 10 * DAY_IN_MS), noon.
    repeat split; reflexivity. }
  assert (Hs : isSafeInteger (available butter))
    by (vm_compute; discriminate).
  split; [reflexivity | split; [exact Hg | split; [exact Hs |]]].
  exact (proj2 (proj2 (proj1 (processOneUnit_expirable
                                butter today (tableOf butter) eq_refl)
                             Hg Hs))).
Defined.



(** The other half of the dispatch: when the guard holds the handler is
    not called at all. *)
Lemma processExpirableProduct_guarded (p : Product) (now : Date) :
  (0 <? available p) && isNotExpired p now = true ->
  processExpirableProduct p now = decrementAvailable p.
Proof. intros G. unfold processExpirableProduct. rewrite G. reflexivity. Qed.

(* ------------------------------------------------------------------ *)
(** ** Unknown type tags *)

(** C8.  On a product whose tag is none of the three [case] labels the
    call returns normally and leaves the world as it found it: no row is
    written and no notification is sent. *)
Theorem processOneUnit_unknown_type (p : Product) (now : Date) (w : World) :
  type p <> "NORMAL" -> type p <> "SEASONAL" -> type p <> "EXPIRABLE" ->
  processOneUnit p now w = (tt, w)
  /\ table (exec (processOneUnit p now) w) = table w
  /\ journal (exec (processOneUnit p now) w) = journal w.
Proof.
  intros Hn Hs He.
  assert (H : processOneUnit p now = ret tt).
  { apply switch_default. unfold knownType.
    apply String.eqb_neq in Hn, Hs, He. rewrite Hn, Hs, He. reflexivity. }
  rewrite H. repeat split.
Qed.

Lemma processOneUnit_unknown_type_witness :
  processOneUnit giftCard today (tableOf giftCard) = (tt, tableOf giftCard).
Proof.
  refine (proj1 (processOneUnit_unknown_type
                   giftCard today (tableOf giftCard) _ _ _));
    discriminate.
Defined.

(* ------------------------------------------------------------------ *)
(** ** One action per call *)

Lemma performs_unique (p : Product) (a a' : Action) (cs : list Call) :
  performs p a cs -> performs p a' cs -> a' = a.
Proof.
  intros H H'. destruct H; inversion H'; reflexivity.
Qed.

Lemma performs_one_update (p : Product) (a : Action) (cs : list Call) :
  performs p a cs -> countUpdates cs = 1%nat.
Proof. intros H. destruct H; reflexivity. Qed.

(** C6, as stated, fails on a NORMAL product that has neither stock nor
    lead time: the call makes no call on a collaborator, so none of the
    four actions is performed. *)
Lemma processOneUnit_soldOutAdapter_no_action :
  exec (processOneUnit soldOutAdapter today) (tableOf soldOutAdapter)
  = tableOf soldOutAdapter
  /\ ~ (exists a cs,
          journal (exec (processOneUnit soldOutAdapter today)
                        (tableOf soldOutAdapter))
          = journal (tableOf soldOutAdapter) ++ cs
          /\ performs soldOutAdapter a cs).
Proof.
  split; [reflexivity |].
  intros (a & cs & Hj & Hp). simpl in Hj. subst cs. inversion Hp.
Qed.

(** The calls of a unit purchase, by cases. *)
Lemma callsOf_processOneUnit (p : Product) (now : Date) :
  (exists a, performs p a (callsOf (processOneUnit p now)) /\ ~ noAction p)
  \/ (callsOf (processOneUnit p now) = [] /\ noAction p).
Proof.
  open_service. by_type p.
  - destruct (0 <? available p) eqn:Ha.
    + left. exists Decrement. split; [exact (performs_decrement p) |].
      apply Z.ltb_lt in Ha. intros [(_ & Hle & _)|(Hn & _)];
        [lia | congruence].
    + destruct (0 <? leadTime p) eqn:Hl.
      * left. exists DelayNotice. split; [exact (performs_delay p) |].
        apply Z.ltb_lt in Hl. intros [(_ & _ & Hle)|(Hn & _)];
          [lia | congruence].
      * right. apply Z.ltb_ge in Ha. apply Z.ltb_ge in Hl.
        split; [reflexivity | left; auto].
  - left.
    assert (Hno : ~ noAction p).
    { intros [(Hn & _)|(_ & Hs & _)]; congruence. }
    split_guards.
    + exists Decrement. split; [exact (performs_decrement p) | assumption].
    + exists OutOfStockNotice.
      split; [exact (performs_out_of_stock_zero p) | assumption].
    + exists OutOfStockNotice.
      split; [exact (performs_out_of_stock_keep p) | assumption].
    + exists DelayNotice. split; [exact (performs_delay p) | assumption].
  - left.
    assert (Hno : ~ noAction p).
    { intros [(Hn & _)|(_ & _ & He)]; congruence. }
    split_guards.
    + exists Decrement. split; [exact (performs_decrement p) | assumption].
    + exists ExpirationNotice.
      split; [exact (performs_expiration p) | assumption].
  - right. split; [reflexivity | right; auto].
Qed.

(** C6, amended.  A call performs at most one of the four actions.  It
    performs exactly one, together with exactly one table update, unless
    the product is NORMAL with neither stock nor lead time or carries an
    unknown tag; on those products it performs none and leaves the world
    as it found it. *)
Theorem processOneUnit_one_action_or_none
  (p : Product) (now : Date) (w : World) :
  exists cs,
    journal (exec (processOneUnit p now) w) = journal w ++ cs
    /\ (((exists a, performs p a cs /\ forall a', performs p a' cs -> a' = a)
          /\ countUpdates cs = 1%nat /\ ~ noAction p)
        \/ (cs = [] /\ noAction p /\ exec (processOneUnit p now) w = w)).
Proof.
  exists (callsOf (processOneUnit p now)).
  split; [apply journal_processOneUnit |].
  destruct (callsOf_processOneUnit p now) as [(a & Ha & Hno)|(Hnil & Hno)].
  - left. split; [| split].
    + exists a. split; [assumption |].
      intros a' Ha'. eapply performs_unique; eassumption.
    + eapply performs_one_update; eassumption.
    + assumption.
  - right. split; [assumption | split; [assumption |]].
    destruct Hno as [(Hty & Ha & Hl)|(Hn & Hs & He)].
    + rewrite (switch_NORMAL p now Hty). unfold processNormalProduct.
      apply Z.ltb_ge in Ha. apply Z.ltb_ge in Hl. rewrite Ha, Hl. reflexivity.
    + rewrite (switch_default p now); [reflexivity |].
      unfold knownType. apply String.eqb_neq in Hn, Hs, He.
      rewrite Hn, Hs, He. reflexivity.
Qed.

(* ------------------------------------------------------------------ *)
(** ** What is written *)

(** C10.  A call of [processOneUnit] makes at most one [updateProduct]
    call. *)
Theorem processOneUnit_at_most_one_update
  (p : Product) (now : Date) (w : World) :
  exists cs,
    journal (exec (processOneUnit p now) w) = journal w ++ cs
    /\ (countUpdates cs <= 1)%nat.
Proof.
  exists (callsOf (processOneUnit p now)).
  split; [apply journal_processOneUnit |].
  destruct (callsOf_processOneUnit p now) as [(a & Ha & _)|(Hnil & _)].
  - rewrite (performs_one_update p a _ Ha). apply Nat.le_refl.
  - rewrite Hnil. simpl. apply Nat.le_0_l.
Qed.

(** Every update an operation issues targets the row of its product and
    sets nothing but [available] and [leadTime]. *)
Lemma calls_perform_stock (op : Operation) :
  Forall (writesStockOf (id (subject op))) (callsOf (perform op)).
Proof.
  destruct op; open_service; split_guards; run_calls;
    repeat (constructor; simpl).
Qed.

(** The table an operation leaves is the one it found, or that table
    after one stock-only update on the row of its product. *)
Lemma table_perform (op : Operation) (w : World) :
  table (exec (perform op) w) = table w
  \/ exists patch,
       stockOnly patch
       /\ table (exec (perform op) w)
          = sqlUpdate (id (subject op)) patch (table w).
Proof.
  destruct op; open_service; split_guards; run_calls;
    first [ left; reflexivity
          | right; eexists; split; [| reflexivity]; repeat split ].
Qed.

(** C9.  Whatever operation of the service runs, every update it issues
    targets the row of the given product and sets only [available] and
    [leadTime]; the table keeps its rows, each row keeps its [id], [name],
    [type], [expiryDate], [seasonStartDate] and [seasonEndDate], and the
    rows of other products are left as they are. *)
Theorem operations_write_stock_only (op : Operation) (w : World) :
  (exists cs,
     journal (exec (perform op) w) = journal w ++ cs
     /\ Forall (writesStockOf (id (subject op))) cs)
  /\ List.length (table (exec (perform op) w)) = List.length (table w)
  /\ (forall i r,
        nth_error (table w) i = Some r ->
        exists r',
          nth_error (table (exec (perform op) w)) i = Some r'
          /\ sameIdentity r r'
          /\ (id r <> id (subject op) -> r' = r)).
Proof.
  split; [| split].
  - exists (callsOf (perform op)).
    split; [apply journal_perform | apply calls_perform_stock].
  - destruct (table_perform op w) as [H|(patch & _ & H)]; rewrite H.
    + reflexivity.
    + apply sqlUpdate_length.
  - intros i r Hr.
    destruct (table_perform op w) as [H|(patch & Hs & H)]; rewrite H.
    + exists r. split; [assumption | split].
      * apply sameIdentity_refl.
      * reflexivity.
    + apply sqlUpdate_frame; assumption.
Qed.

(* ------------------------------------------------------------------ *)
(** ** Operations as table transformers *)

Lemma replay_app (cs1 cs2 : list Call) (rows : list Product) :
  replay (cs1 ++ cs2) rows = replay cs2 (replay cs1 rows).
Proof.
  revert rows. induction cs1 as [|c cs1 IH]; intros rows; simpl.
  - reflexivity.
  - destruct c; apply IH.
Qed.

(** The table an operation leaves is the table it found with the updates
    of its journal replayed. *)
Lemma table_replay (op : Operation) (w : World) :
  table (exec (perform op) w) = replay (callsOf (perform op)) (table w).
Proof.
  destruct op; open_service; split_guards; run_calls; reflexivity.
Qed.

(** The one patch of an operation, if any, is fixed by the record and the
    clock reading: it does not depend on the table. *)
Lemma table_perform_uniform (op : Operation) :
  (forall w, table (exec (perform op) w) = table w)
  \/ exists patch,
       stockOnly patch
       /\ forall w, table (exec (perform op) w)
                    = sqlUpdate (id (subject op)) patch (table w).
Proof.
  destruct op; open_service; split_guards;
    first [ left; intros w; reflexivity
          | right; eexists; split; [| intros w; reflexivity]; repeat split ].
Qed.

Section TwoUpdates.

Variables (i1 i2 : Z) (patch1 patch2 : Patch).
Hypothesis keeps_id1 : set_id patch1 = None.
Hypothesis keeps_id2 : set_id patch2 = None.
Hypothesis distinct : i1 <> i2.

(** Updates on the rows of two different products can be swapped. *)
Lemma sqlUpdate_swap (rows : list Product) :
  sqlUpdate i1 patch1 (sqlUpdate i2 patch2 rows)
  = sqlUpdate i2 patch2 (sqlUpdate i1 patch1 rows).
Proof.
  unfold sqlUpdate. rewrite !map_map. apply map_ext. intros r.
  assert (H1 : id (applyPatch patch1 r) = id r).
  { unfold applyPatch; simpl. rewrite keeps_id1. reflexivity. }
  assert (H2 : id (applyPatch patch2 r) = id r).
  { unfold applyPatch; simpl. rewrite keeps_id2. reflexivity. }
  destruct (id r =? i1) eqn:E1, (id r =? i2) eqn:E2;
    rewrite ?H1, ?H2, ?E1, ?E2; try reflexivity.
  apply Z.eqb_eq in E1. apply Z.eqb_eq in E2. congruence.
Qed.

End TwoUpdates.

(** X1.  Running any operation a second time on the same record (same
    clock reading) leaves the table as the first run left it. *)
Theorem perform_twice_table (op : Operation) (w : World) :
  table (exec (perform op ;; perform op) w) = table (exec (perform op) w).
Proof.
  rewrite exec_bind.
  destruct (table_perform_uniform op) as [H|(patch & Hs & H)].
  - rewrite !H. reflexivity.
  - rewrite !H. apply sqlUpdate_idempotent. apply Hs.
Qed.

(** X2.  Operations on records of two different products commute on the
    table: whichever runs first, the rows end up the same. *)
Theorem perform_commute (op1 op2 : Operation) (w : World) :
  id (subject op1) <> id (subject op2) ->
  table (exec (perform op1 ;; perform op2) w)
  = table (exec (perform op2 ;; perform op1) w).
Proof.
  intros Hne. rewrite !exec_bind.
  destruct (table_perform_uniform op1) as [H1|(patch1 & Hs1 & H1)],
           (table_perform_uniform op2) as [H2|(patch2 & Hs2 & H2)];
    rewrite ?H1, ?H2, ?H1; try reflexivity.
  apply sqlUpdate_swap; [apply Hs2 | apply Hs1 | congruence].
Qed.

Lemma perform_commute_witness :
  id (subject (ProcessOneUnit hdmiCable today))
  <> id (subject (ProcessOneUnit milk today)) /\
  table (exec (perform (ProcessOneUnit hdmiCable today) ;;
               perform (ProcessOneUnit milk today))
              (mkWorld [milk; hdmiCable] []))
  = table (exec (perform (ProcessOneUnit milk today) ;;
                 perform (ProcessOneUnit hdmiCable today))
                (mkWorld [milk; hdmiCable] [])).
Proof.
  assert (H : id (subject (ProcessOneUnit hdmiCable today))
              <> id (subject (ProcessOneUnit milk today)))
    by discriminate.
  split; [exact H |].
  exact (perform_commute (ProcessOneUnit hdmiCable today)
           (ProcessOneUnit milk today) (mkWorld [milk; hdmiCable] []) H).
Defined.

(* ------------------------------------------------------------------ *)
(** ** Stock never goes below zero *)

Lemma sqlUpdate_no_debt (productId : Z) (patch : Patch) (rows : list Product) :
  writesNoDebt (DbUpdate productId patch) ->
  Forall (fun r => 0 <= available r) rows ->
  Forall (fun r => 0 <= available r) (sqlUpdate productId patch rows).
Proof.
  intros Hp Hr. unfold sqlUpdate. apply Forall_map.
  apply Forall_impl with (2 := Hr). intros r Ha.
  destruct (id r =? productId); [| assumption].
  unfold applyPatch; simpl. simpl in Hp.
  destruct (set_available patch); simpl; assumption.
Qed.

(** The decrement is only written under a guard that has [available > 0]
    in it. *)
Lemma calls_perform_no_debt (op : Operation) :
  0 <= available (subject op) ->
  Forall writesNoDebt (callsOf (perform op)).
Proof.
  intros H0. destruct op; simpl in H0; open_service; split_guards; run_calls;
    repeat (constructor; simpl); trivial;
    repeat match goal with
           | H : _ && _ = true |- _ =>
               apply andb_true_iff in H; destruct H
           | H : (0 <? _) = true |- _ => apply Z.ltb_lt in H
           end; lia.
Qed.

Lemma replay_no_debt (cs : list Call) (rows : list Product) :
  Forall writesNoDebt cs ->
  Forall (fun r => 0 <= available r) rows ->
  Forall (fun r => 0 <= available r) (replay cs rows).
Proof.
  revert rows. induction cs as [|c cs IH]; intros rows Hcs Hr; simpl.
  - assumption.
  - inversion Hcs as [|c' cs' Hc Hcs']; subst.
    destruct c; try (apply IH; assumption).
    apply IH; [assumption | apply sqlUpdate_no_debt; assumption].
Qed.

(** X3.  No operation writes a negative stock: when the record and all
    stored rows have [available >= 0], every [available] the operation
    writes is [>= 0], and so is that of every row afterwards. *)
Theorem perform_no_debt (op : Operation) (w : World) :
  0 <= available (subject op) ->
  Forall (fun r => 0 <= available r) (table w) ->
  Forall writesNoDebt (callsOf (perform op))
  /\ Forall (fun r => 0 <= available r) (table (exec (perform op) w)).
Proof.
  intros H0 Hw. split.
  - apply calls_perform_no_debt. assumption.
  - rewrite table_replay. apply replay_no_debt; [| assumption].
    apply calls_perform_no_debt. assumption.
Qed.

Lemma perform_no_debt_witness :
  0 <= available (subject (ProcessOneUnit milk today)) /\
  Forall (fun r => 0 <= available r) (table (tableOf milk)) /\
  Forall (fun r => 0 <= available r)
         (table (exec (perform (ProcessOneUnit milk today)) (tableOf milk))).
Proof.
  assert (H0 : 0 <= available (subject (ProcessOneUnit milk today)))
    by (simpl; lia).
  assert (Hw : Forall (fun r => 0 <= available r) (table (tableOf milk)))
    by (repeat constructor; simpl; lia).
  split; [exact H0 | split; [exact Hw |]].
  exact (proj2 (perform_no_debt (ProcessOneUnit milk today) (tableOf milk)
                  H0 Hw)).
Defined.

(* ------------------------------------------------------------------ *)
(** ** A purchase on a freshly fetched record *)

(** The patches [processOneUnit] can issue. *)
Lemma table_processOneUnit (p : Product) (now : Date) (w : World) :
  table (exec (processOneUnit p now) w) = table w
  \/ exists patch,
       table (exec (processOneUnit p now) w)
       = sqlUpdate (id p) patch (table w)
       /\ (patch = patchAvailable (available p - 1)
           \/ patch = patchAvailable 0
           \/ patch = patchLeadTime (leadTime p)
           \/ patch = patchStock (available p) (leadTime p)).
Proof.
  open_service; split_guards; run_calls;
    first [ left; reflexivity
          | right; eexists; split; [reflexivity |]; tauto ].
Qed.

(** X4.  On a record whose stock fields are those of the stored rows and
    whose [available] is a safe integer (so that the decrement is the one
    the source computes), a unit purchase changes nothing in the table
    but [available], and that only to the same value, to one less, or to
    zero; every row stays in place with its lead time and its other
    fields. *)
Theorem processOneUnit_fresh_record
  (p : Product) (now : Date) (w : World) (i : nat) (r : Product) :
  fresh p (table w) ->
  isSafeInteger (available p) ->
  nth_error (table w) i = Some r ->
  exists r',
    nth_error (table (exec (processOneUnit p now) w)) i = Some r'
    /\ sameIdentity r r'
    /\ leadTime r' = leadTime r
    /\ (available r' = available r
        \/ available r' = available r - 1
        \/ available r' = 0).
Proof.
  intros Hf _ Hr.
  assert (Hin : In r (table w)) by (eapply nth_error_In; eassumption).
  destruct (table_processOneUnit p now w) as [H|(patch & H & Hp)]; rewrite H.
  - exists r. split; [assumption |].
    split; [apply sameIdentity_refl | auto].
  - rewrite sqlUpdate_nth_error, Hr. simpl.
    destruct (id r =? id p) eqn:E.
    + apply Z.eqb_eq in E. destruct (Hf r Hin E) as [Ha Hl].
      exists (applyPatch patch r). split; [reflexivity |].
      destruct Hp as [ -> | [ -> | [ -> | -> ] ] ];
        (split; [apply applyPatch_sameIdentity; repeat split |]);
        unfold applyPatch; simpl; rewrite <- ?Ha, <- ?Hl; auto.
    + exists r. split; [reflexivity |].
      split; [apply sameIdentity_refl | auto].
Qed.

Lemma processOneUnit_fresh_record_witness :
  fresh milk (table (tableOf milk)) /\
  isSafeInteger (available milk) /\
  exists r',
    nth_error (table (exec (processOneUnit milk today) (tableOf milk))) 0
    = Some r'
    /\ sameIdentity milk r'
    /\ leadTime r' = leadTime milk
    /\ (available r' = available milk
        \/ available r' = available milk - 1
        \/ available r' = 0).
Proof.
  assert (Hf : fresh milk (table (tableOf milk))).
  { intros r Hin _. destruct Hin as [Hr|Hin]; [| contradiction].
    subst r. split; reflexivity. }
  assert (Hs : isSafeInteger (available milk))
    by (vm_compute; discriminate).
  split; [exact Hf | split; [exact Hs |]].
  exact (processOneUnit_fresh_record milk today (tableOf milk) 0 milk
           Hf Hs eq_refl).
Defined.

(** X5.  When the decrement guard holds and the record's [available] is a
    safe integer (so that the decrement is the one the source computes),
    a stored row that agrees with the record on [available] ends with
    exactly one unit less; its lead time and its other fields are as
    before. *)
Theorem processOneUnit_one_unit_less
  (p : Product) (now : Date) (w : World) (i : nat) (r : Product) :
  takesDecrement p now = true ->
  isSafeInteger (available p) ->
  nth_error (table w) i = Some r ->
  id r = id p ->
  available r = available p ->
  exists r',
    nth_error (table (exec (processOneUnit p now) w)) i = Some r'
    /\ available r' = available r - 1
    /\ leadTime r' = leadTime r
    /\ sameIdentity r r'.
Proof.
  intros Hd _ Hr Hid Ha. rewrite (takesDecrement_run p now Hd).
  unfold decrementAvailable. rewrite exec_updateProduct. simpl.
  rewrite sqlUpdate_nth_error, Hr. simpl.
  apply Z.eqb_eq in Hid. rewrite Hid.
  eexists. split; [reflexivity |].
  unfold applyPatch; simpl. rewrite Ha.
  split; [reflexivity | split; [reflexivity |]].
  unfold sameIdentity; simpl. repeat split.
Qed.

Lemma processOneUnit_one_unit_less_witness :
  takesDecrement butter today = true /\
  isSafeInteger (available butter) /\
  exists r',
    nth_error (table (exec (processOneUnit butter today) (tableOf butter))) 0
    = Some r'
    /\ available r' = available butter - 1
    /\ leadTime r' = leadTime butter
    /\ sameIdentity butter r'.
Proof.
  assert (Hs : isSafeInteger (available butter))
    by (vm_compute; discriminate).
  split; [reflexivity | split; [exact Hs |]].
  exact (processOneUnit_one_unit_less butter today (tableOf butter) 0 butter
           eq_refl Hs eq_refl eq_refl eq_refl).
Defined.

(** X6.  [notifyDelay] with any lead time stores it in the rows of the
    record's product, whatever they held, and touches neither their
    [available] nor any other row; it then sends the delay notification
    with that lead time and the record's name. *)
Theorem notifyDelay_stores_leadTime
  (l : Z) (p : Product) (w : World) (i : nat) (r : Product) :
  nth_error (table w) i = Some r ->
  journal (exec (notifyDelay l p) w)
  = journal w ++ [DbUpdate (id p) (patchLeadTime l);
                  SendDelayNotification l (name p)]
  /\ exists r',
       nth_error (table (exec (notifyDelay l p) w)) i = Some r'
       /\ available r' = available r
       /\ sameIdentity r r'
       /\ (id r = id p -> leadTime r' = l)
       /\ (id r <> id p -> r' = r).
Proof.
  intros Hr. run_calls. split.
  - rewrite <- app_assoc. reflexivity.
  - rewrite sqlUpdate_nth_error, Hr. simpl.
    destruct (id r =? id p) eqn:E.
    + exists (applyPatch (patchLeadTime l) r). split; [reflexivity |].
      split; [reflexivity |].
      split; [apply applyPatch_sameIdentity; repeat split |].
      split; [reflexivity |].
      intros Hne. apply Z.eqb_eq in E. contradiction.
    + exists r. split; [reflexivity |].
      split; [reflexivity |].
      split; [apply sameIdentity_refl |].
      split; [| reflexivity].
      intros He. apply Z.eqb_neq in E. contradiction.
Qed.

Lemma notifyDelay_stores_leadTime_witness :
  nth_error (table (tableOf rj45Cable)) 0 = Some rj45Cable /\
  journal (exec (notifyDelay 21 rj45Cable) (tableOf rj45Cable))
  = [DbUpdate 1 (patchLeadTime 21); SendDelayNotification 21 "RJ45 Cable"].
Proof.
  split; [reflexivity |].
  exact (proj1 (notifyDelay_stores_leadTime 21 rj45Cable (tableOf rj45Cable)
                  0 rj45Cable eq_refl)).
Defined.

(* ------------------------------------------------------------------ *)
(** ** Notifications *)

(** X7.  An operation sends at most one notification; every notification
    carries the name of the record it was given; and a notification never
    goes without exactly one table update in the same run. *)
Theorem perform_notifications (op : Operation) :
  (countNotifications (callsOf (perform op)) <= 1)%nat
  /\ (forall c n, In c (callsOf (perform op)) ->
                  notifiedName c = Some n -> n = name (subject op))
  /\ (countNotifications (callsOf (perform op)) = 1%nat ->
      countUpdates (callsOf (perform op)) = 1%nat).
Proof.
  destruct op; open_service; split_guards; run_calls;
    (split; [unfold countNotifications; simpl; lia | split]);
    try (intros _; reflexivity);
    try (unfold countNotifications; simpl; discriminate);
    intros c n Hin Hn; simpl in Hin;
    repeat (destruct Hin as [<-|Hin]; [simpl in Hn; congruence |]);
    contradiction.
Qed.

(* ------------------------------------------------------------------ *)
(** ** SEASONAL products around the season *)

Section Season.

Variables (p : Product) (now : Date) (w : World).
Variable tn : Z.
Hypothesis seasonal : type p = "SEASONAL".
Hypothesis now_valid : getTime now = Some tn.

(** The restock date as a number, when it is in the range of [Date]. *)
Lemma expectedRestockDate_time :
  Z.abs (tn + leadTime p * 86400000) <= MAX_TIME ->
  getTime (expectedRestockDate p now) = Some (tn + leadTime p * 86400000).
Proof.
  intros Hr. unfold expectedRestockDate. rewrite now_valid. simpl.
  change DAY_IN_MS with 86400000. apply Z.leb_le in Hr. rewrite Hr.
  reflexivity.
Qed.

(** X8.  In season and out of stock, with [now] plus [leadTime] days
    within the range of [Date], the outcome depends on that restock date
    alone: after the season end, the out-of-stock notification and
    [available = 0]; otherwise the delay notification.  The branch for a
    season that has not started is never taken. *)
Theorem seasonal_in_season_out_of_stock (s e : Date) (ts te : Z) :
  seasonStartDate p = Some s -> getTime s = Some ts ->
  seasonEndDate p = Some e -> getTime e = Some te ->
  ts < tn < te ->
  available p <= 0 ->
  Z.abs (tn + leadTime p * 86400000) <= MAX_TIME ->
  (te < tn + leadTime p * 86400000 ->
     journal (exec (processOneUnit p now) w)
     = journal w ++ [SendOutOfStockNotification (name p);
                     DbUpdate (id p) (patchAvailable 0)])
  /\ (tn + leadTime p * 86400000 <= te ->
        journal (exec (processOneUnit p now) w)
        = journal w ++ [DbUpdate (id p) (patchLeadTime (leadTime p));
                        SendDelayNotification (leadTime p) (name p)]).
Proof.
  intros Hs Hts He Hte Hin Ha Hr.
  rewrite (switch_SEASONAL p now seasonal). unfold processSeasonalProduct.
  apply Z.ltb_ge in Ha. rewrite Ha, andb_false_r.
  unfold handleSeasonalProduct, js_gt. simpl.
  rewrite (expectedRestockDate_time Hr), Hs, He. simpl.
  rewrite Hts, Hte, now_valid. simpl.
  split; intros H.
  - apply Z.ltb_lt in H. rewrite H. run_calls.
    rewrite <- app_assoc. reflexivity.
  - apply Z.ltb_ge in H. rewrite H.
    assert (Hn : (tn <? ts) = false) by (apply Z.ltb_ge; lia).
    rewrite Hn. run_calls. rewrite <- app_assoc. reflexivity.
Qed.

(** X9.  Once the season is over, a purchase sends the out-of-stock
    notification and writes [available = 0], even when units are left:
    with a lead time that is not negative the restock date is after the
    season end. *)
Theorem seasonal_after_season (e : Date) (te : Z) :
  seasonEndDate p = Some e -> getTime e = Some te ->
  te < tn ->
  0 <= leadTime p ->
  Z.abs (tn + leadTime p * 86400000) <= MAX_TIME ->
  journal (exec (processOneUnit p now) w)
  = journal w ++ [SendOutOfStockNotification (name p);
                  DbUpdate (id p) (patchAvailable 0)]
  /\ forall r, In r (table (exec (processOneUnit p now) w)) ->
               id r = id p -> available r = 0.
Proof.
  intros He Hte Hlate Hl Hr.
  rewrite (switch_SEASONAL p now seasonal). unfold processSeasonalProduct.
  assert (Hout : isWithinSeason p now = false).
  { unfold isWithinSeason, js_lt, js_gt. rewrite He. simpl.
    rewrite Hte, now_valid. simpl.
    assert (Hn : (tn <? te) = false) by (apply Z.ltb_ge; lia).
    rewrite Hn. apply andb_false_r. }
  rewrite Hout. simpl.
  unfold handleSeasonalProduct, js_gt. simpl.
  rewrite (expectedRestockDate_time Hr), He. simpl. rewrite Hte.
  assert (Hgt : (te <? tn + leadTime p * 86400000) = true)
    by (apply Z.ltb_lt; lia).
  rewrite Hgt. run_calls. split.
  - rewrite <- app_assoc. reflexivity.
  - intros r Hin Hid. eapply sqlUpdate_available; eassumption.
Qed.

(** X10.  Before the season starts, a purchase is never served and never
    answered with a delay: it sends the out-of-stock notification, and
    writes either [available = 0] or the record's own stock fields. *)
Theorem seasonal_before_season (s : Date) (ts : Z) :
  seasonStartDate p = Some s -> getTime s = Some ts ->
  tn < ts ->
  exists patch,
    (patch = patchAvailable 0
     \/ patch = patchStock (available p) (leadTime p))
    /\ journal (exec (processOneUnit p now) w)
       = journal w ++ [SendOutOfStockNotification (name p);
                       DbUpdate (id p) patch].
Proof.
  intros Hs Hts Hearly.
  rewrite (switch_SEASONAL p now seasonal). unfold processSeasonalProduct.
  assert (Hout : isWithinSeason p now = false).
  { unfold isWithinSeason, js_gt. rewrite Hs. simpl.
    rewrite Hts, now_valid. simpl.
    assert (Hn : (ts <? tn) = false) by (apply Z.ltb_ge; lia).
    rewrite Hn. rewrite andb_false_r. reflexivity. }
  rewrite Hout. simpl. unfold handleSeasonalProduct.
  destruct (js_gt (Some (expectedRestockDate p now)) (seasonEndDate p)).
  - exists (patchAvailable 0). split; [auto |].
    run_calls. rewrite <- app_assoc. reflexivity.
  - assert (Hpre : js_gt (seasonStartDate p) (Some now) = true).
    { unfold js_gt. rewrite Hs. simpl. rewrite Hts, now_valid. simpl.
      apply Z.ltb_lt. assumption. }
    rewrite Hpre. exists (patchStock (available p) (leadTime p)).
    split; [auto |]. run_calls. rewrite <- app_assoc. reflexivity.
Qed.

(** X11.  A SEASONAL product stored without a season end is never served:
    [null] counts as the epoch, so any restock date after 1970 is "after
    the season end", and the purchase sends the out-of-stock notification
    and writes [available = 0]. *)
Theorem seasonal_without_season_end :
  seasonEndDate p = None ->
  0 < tn + leadTime p * 86400000 <= MAX_TIME ->
  journal (exec (processOneUnit p now) w)
  = journal w ++ [SendOutOfStockNotification (name p);
                  DbUpdate (id p) (patchAvailable 0)]
  /\ forall r, In r (table (exec (processOneUnit p now) w)) ->
               id r = id p -> available r = 0.
Proof.
  intros He [Hpos Hmax].
  rewrite (switch_SEASONAL p now seasonal). unfold processSeasonalProduct.
  assert (Hout : isWithinSeason p now = false).
  { unfold isWithinSeason. rewrite He. simpl.
    rewrite andb_false_r. reflexivity. }
  rewrite Hout. simpl.
  assert (Hr : Z.abs (tn + leadTime p * 86400000) <= MAX_TIME) by lia.
  unfold handleSeasonalProduct, js_gt. simpl.
  rewrite (expectedRestockDate_time Hr), He. simpl.
  assert (Hgt : (0 <? tn + leadTime p * 86400000) = true)
    by (apply Z.ltb_lt; lia).
  rewrite Hgt. run_calls. split.
  - rewrite <- app_assoc. reflexivity.
  - intros r Hin Hid. eapply sqlUpdate_available; eassumption.
Qed.

End Season.

Lemma seasonal_in_season_out_of_stock_witness :
  type pumpkin = "SEASONAL" /\
  journal (exec (processOneUnit pumpkin today) (tableOf pumpkin))
  = [DbUpdate 1 (patchLeadTime 3); SendDelayNotification 3 "Pumpkin"].
Proof.
  split; [reflexivity |].
  refine (proj2 (seasonal_in_season_out_of_stock
                   pumpkin today (tableOf pumpkin) noon eq_refl eq_refl
                   (daysFromToday (-2)) (daysFromToday 10)
                   (noon + -2 * DAY_IN_MS) (noon + 10 * DAY_IN_MS)
                   eq_refl eq_refl eq_refl eq_refl _ _ _) _);
    vm_compute; try split; try reflexivity; discriminate.
Defined.

Lemma seasonal_after_season_witness :
  type watermelon = "SEASONAL" /\
  journal (exec (processOneUnit watermelon (daysFromToday 20))
                (tableOf watermelon))
  = [SendOutOfStockNotification "Watermelon"; DbUpdate 1 (patchAvailable 0)].
Proof.
  split; [reflexivity |].
  refine (proj1 (seasonal_after_season
                   watermelon (daysFromToday 20) (tableOf watermelon)
                   (noon + 20 * DAY_IN_MS) eq_refl eq_refl
                   (daysFromToday 10) (noon + 10 * DAY_IN_MS)
                   eq_refl eq_refl _ _ _));
    vm_compute; try reflexivity; discriminate.
Defined.

Lemma seasonal_before_season_witness :
  type cherries = "SEASONAL" /\
  exists patch,
    (patch = patchAvailable 0
     \/ patch = patchStock (available cherries) (leadTime cherries))
    /\ journal (exec (processOneUnit cherries today) (tableOf cherries))
       = journal (tableOf cherries)
         ++ [SendOutOfStockNotification (name cherries);
             DbUpdate (id cherries) patch].
Proof.
  split; [reflexivity |].
  refine (seasonal_before_season
            cherries today (tableOf cherries) noon eq_refl eq_refl
            (daysFromToday 20) (noon + 20 * DAY_IN_MS) eq_refl eq_refl _).
  vm_compute. reflexivity.
Defined.

Lemma seasonal_without_season_end_witness :
  type figs = "SEASONAL" /\ seasonEndDate figs = None /\
  journal (exec (processOneUnit figs today) (tableOf figs))
  = [SendOutOfStockNotification "Figs"; DbUpdate 3 (patchAvailable 0)].
Proof.
  split; [reflexivity | split; [reflexivity |]].
  refine (proj1 (seasonal_without_season_end
                   figs today (tableOf figs) noon eq_refl eq_refl
                   eq_refl _)).
  vm_compute. split; [reflexivity | discriminate].
Defined.

(* ------------------------------------------------------------------ *)
(** ** Expiry and the passing of time *)

(** X12.  Time does not bring a product back: for every product that is
    not SEASONAL, a purchase that is served at a later clock reading is
    served at an earlier one too.  An EXPIRABLE product refused once is
    refused from then on as long as its record is the same. *)
Theorem served_later_served_earlier
  (p : Product) (now later : Date) (tn tl : Z) :
  type p <> "SEASONAL" ->
  getTime now = Some tn -> getTime later = Some tl -> tn <= tl ->
  takesDecrement p later = true -> takesDecrement p now = true.
Proof.
  intros Hty Hn Hl Hle. unfold takesDecrement.
  apply String.eqb_neq in Hty. rewrite Hty. simpl. rewrite !orb_false_r.
  destruct (String.eqb (type p) "NORMAL"); simpl.
  - destruct (0 <? available p); simpl; [reflexivity |].
    rewrite !andb_false_r. auto.
  - destruct (String.eqb (type p) "EXPIRABLE"); simpl; [| auto].
    destruct (0 <? available p); simpl; [| auto].
    unfold isNotExpired, js_gt. simpl. rewrite Hn, Hl.
    destruct (expiryDate p) as [[[te|]]|]; simpl; try discriminate.
    intros H. apply Z.ltb_lt in H. apply Z.ltb_lt. lia.
Qed.

Lemma served_later_served_earlier_witness :
  type butter <> "SEASONAL" /\
  takesDecrement butter (daysFromToday 5) = true /\
  takesDecrement butter today = true.
Proof.
  assert (H : type butter <> "SEASONAL") by discriminate.
  split; [exact H | split; [reflexivity |]].
  refine (served_later_served_earlier butter today (daysFromToday 5)
            noon (noon + 5 * DAY_IN_MS) H eq_refl eq_refl _ eq_refl).
  vm_compute. discriminate.
Defined.

(* ------------------------------------------------------------------ *)
(** ** The loop of the controller *)

Lemma sameIdentity_trans (r1 r2 r3 : Product) :
  sameIdentity r1 r2 -> sameIdentity r2 r3 -> sameIdentity r1 r3.
Proof.
  unfold sameIdentity.
  intros (a1 & a2 & a3 & a4 & a5 & a6) (b1 & b2 & b3 & b4 & b5 & b6).
  repeat split; congruence.
Qed.

Lemma countUpdates_app (cs1 cs2 : list Call) :
  countUpdates (cs1 ++ cs2) = (countUpdates cs1 + countUpdates cs2)%nat.
Proof. unfold countUpdates. rewrite filter_app, length_app. reflexivity. Qed.

Lemma countNotifications_app (cs1 cs2 : list Call) :
  countNotifications (cs1 ++ cs2)
  = (countNotifications cs1 + countNotifications cs2)%nat.
Proof.
  unfold countNotifications. rewrite filter_app, length_app. reflexivity.
Qed.

Lemma calls_processOneUnit_bounds (p : Product) (now : Date) :
  (countUpdates (callsOf (processOneUnit p now)) <= 1)%nat
  /\ (countNotifications (callsOf (processOneUnit p now)) <= 1)%nat.
Proof.
  open_service; split_guards; run_calls;
    unfold countUpdates, countNotifications; simpl; lia.
Qed.

Lemma table_replay_processOneUnit (p : Product) (now : Date) (w : World) :
  table (exec (processOneUnit p now) w)
  = replay (callsOf (processOneUnit p now)) (table w).
Proof. exact (table_replay (ProcessOneUnit p now) w). Qed.

Lemma exec_processProducts_cons (clock : nat -> Date) (line : OrderLine)
  (rest : list OrderLine) (w : World) :
  exec (processProducts clock (line :: rest)) w
  = exec (processProducts (fun n => clock (S n)) rest)
         (exec (processOneUnit (product line) (clock 0%nat)) w).
Proof. simpl. apply exec_bind. Qed.

(** The loop makes the calls of its turns, one turn after the other, and
    leaves the table those calls produce. *)
Lemma journal_processProducts (productList : list OrderLine) :
  forall (clock : nat -> Date) (w : World),
    journal (exec (processProducts clock productList) w)
    = journal w ++ callsOfProducts clock productList.
Proof.
  induction productList as [|line rest IH]; intros clock w.
  - simpl. rewrite app_nil_r. reflexivity.
  - rewrite exec_processProducts_cons, IH, journal_processOneUnit.
    simpl. rewrite app_assoc. reflexivity.
Qed.

Lemma table_processProducts (productList : list OrderLine) :
  forall (clock : nat -> Date) (w : World),
    table (exec (processProducts clock productList) w)
    = replay (callsOfProducts clock productList) (table w).
Proof.
  induction productList as [|line rest IH]; intros clock w.
  - reflexivity.
  - rewrite exec_processProducts_cons, IH, table_replay_processOneUnit.
    simpl. rewrite replay_app. reflexivity.
Qed.

Lemma callsOfProducts_bounds (productList : list OrderLine) :
  forall clock : nat -> Date,
    (countUpdates (callsOfProducts clock productList)
     <= List.length productList)%nat
    /\ (countNotifications (callsOfProducts clock productList)
        <= List.length productList)%nat.
Proof.
  induction productList as [|line rest IH]; intros clock; simpl.
  - split; apply Nat.le_refl.
  - rewrite countUpdates_app, countNotifications_app.
    destruct (IH (fun n => clock (S n))) as [Hu Hn].
    destruct (calls_processOneUnit_bounds (product line) (clock 0%nat))
      as [Hu1 Hn1].
    split; lia.
Qed.

(** The handler is the loop over [linesOf], followed by the reply. *)
Lemma exec_processOrder (clock : nat -> Date) (order : option Order.t)
  (w : World) :
  exec (processOrder clock order) w
  = exec (processProducts clock (linesOf order)) w.
Proof.
  destruct order as [o|]; [| reflexivity].
  unfold processOrder, linesOf. rewrite exec_bind, exec_ret.
  destruct (Order.products o); reflexivity.
Qed.

(** X13.  The handler answers with the order's id whatever became of the
    products, and raises [TypeError] when the order is missing.  For an
    order of [n] lines it makes at most [n] table updates and sends at
    most [n] notifications; with no line (missing order, absent or empty
    product list) it makes no call at all. *)
Theorem processOrder_outcome (clock : nat -> Date) (order : option Order.t)
  (w : World) :
  fst (processOrder clock order w)
  = match order with
    | Some o => inr (mkReply (Order.id o))
    | None => inl TypeError
    end
  /\ exists cs,
       journal (exec (processOrder clock order) w) = journal w ++ cs
       /\ (countUpdates cs <= List.length (linesOf order))%nat
       /\ (countNotifications cs <= List.length (linesOf order))%nat
       /\ (linesOf order = [] -> cs = []).
Proof.
  split.
  - destruct order as [o|]; [| reflexivity].
    unfold processOrder, bind.
    destruct (Order.products o) as [l|].
    + destruct (processProducts clock l w). reflexivity.
    + reflexivity.
  - exists (callsOfProducts clock (linesOf order)).
    rewrite exec_processOrder.
    split; [apply journal_processProducts |].
    destruct (callsOfProducts_bounds (linesOf order) clock) as [Hu Hn].
    split; [exact Hu | split; [exact Hn |]].
    intros ->. reflexivity.
Qed.

(** One operation, row by row. *)
Lemma perform_frame (op : Operation) (w : World) (i : nat) (r : Product) :
  nth_error (table w) i = Some r ->
  exists r',
    nth_error (table (exec (perform op) w)) i = Some r'
    /\ sameIdentity r r'
    /\ (id r <> id (subject op) -> r' = r).
Proof.
  intros Hr. destruct (table_perform op w) as [H|(patch & Hs & H)]; rewrite H.
  - exists r. split; [assumption |]. split; [auto with frame | reflexivity].
  - apply sqlUpdate_frame; assumption.
Qed.

(** X14.  Handling an order keeps every row of the table in place with
    its [id], [type], [name] and dates, and leaves as they are the rows
    of the products the order does not list. *)
Theorem processOrder_frame (clock : nat -> Date) (order : option Order.t)
  (w : World) :
  List.length (table (exec (processOrder clock order) w))
  = List.length (table w)
  /\ forall i r,
       nth_error (table w) i = Some r ->
       exists r',
         nth_error (table (exec (processOrder clock order) w)) i = Some r'
         /\ sameIdentity r r'
         /\ ((forall line, In line (linesOf order) ->
                           id (product line) <> id r) ->
             r' = r).
Proof.
  rewrite exec_processOrder.
  assert (Hrows : forall l clock' w' i r,
            nth_error (table w') i = Some r ->
            exists r',
              nth_error (table (exec (processProducts clock' l) w')) i
              = Some r'
              /\ sameIdentity r r'
              /\ ((forall line, In line l -> id (product line) <> id r) ->
                  r' = r)).
  { induction l as [|line rest IH]; intros clock' w' i r Hr.
    - exists r. split; [assumption |].
      split; [auto with frame | reflexivity].
    - rewrite exec_processProducts_cons.
      destruct (perform_frame
                  (ProcessOneUnit (product line) (clock' 0%nat)) w' i r Hr)
        as (r1 & Hr1 & Hs1 & Hk1).
      destruct (IH (fun n => clock' (S n)) _ i r1 Hr1)
        as (r2 & Hr2 & Hs2 & Hk2).
      exists r2. split; [exact Hr2 |].
      split; [eapply sameIdentity_trans; eassumption |].
      intros Hother.
      assert (E1 : r1 = r).
      { apply Hk1. simpl. intros E.
        apply (Hother line (or_introl eq_refl)). symmetry. exact E. }
      subst r1. apply Hk2. intros l' Hin. apply Hother. right. exact Hin. }
  split.
  - generalize (linesOf order) clock w.
    induction l as [|line rest IH]; intros clock' w'.
    + reflexivity.
    + rewrite exec_processProducts_cons, IH.
      destruct (table_perform
                  (ProcessOneUnit (product line) (clock' 0%nat)) w')
        as [H|(patch & _ & H)]; simpl in H; rewrite H.
      * reflexivity.
      * apply sqlUpdate_length.
  - apply Hrows.
Qed.

(** X15.  A product list that holds the same fetched record several times
    takes one unit only: every turn writes the record's [available] minus
    one, so after [n + 1] turns and [n + 1] updates the table is the one a
    single decrement leaves. *)
Theorem processProducts_same_record (p : Product) (n : nat) :
  forall (clock : nat -> Date) (w : World),
    (forall k, (k <= n)%nat -> takesDecrement p (clock k) = true) ->
    table (exec (processProducts clock (repeat (mkOrderLine p) (S n))) w)
    = table (exec (decrementAvailable p) w)
    /\ countUpdates (callsOfProducts clock (repeat (mkOrderLine p) (S n)))
       = S n.
Proof.
  induction n as [|n IH]; intros clock w Hd.
  - simpl repeat. rewrite exec_processProducts_cons. simpl.
    rewrite (takesDecrement_run p (clock 0%nat) (Hd 0%nat (Nat.le_refl _))).
    split; [reflexivity |]. rewrite app_nil_r. reflexivity.
  - change (repeat (mkOrderLine p) (S (S n)))
      with (mkOrderLine p :: repeat (mkOrderLine p) (S n)).
    rewrite exec_processProducts_cons.
    assert (H0 : takesDecrement p (clock 0%nat) = true)
      by (apply Hd; lia).
    destruct (IH (fun k => clock (S k))
                 (exec (processOneUnit (product (mkOrderLine p))
                                       (clock 0%nat)) w))
      as [Ht Hc].
    { intros k Hk. apply Hd. lia. }
    split.
    + rewrite Ht. simpl product.
      rewrite (takesDecrement_run p (clock 0%nat) H0).
      apply decrementAvailable_twice.
    + simpl callsOfProducts at 1. rewrite countUpdates_app.
      simpl callsOfProducts in Hc. rewrite Hc.
      simpl product. rewrite (takesDecrement_run p (clock 0%nat) H0).
      reflexivity.
Qed.

Lemma processProducts_same_record_witness :
  (forall k, (k <= 1)%nat -> takesDecrement watermelon (stopped k) = true) /\
  map available
    (table (exec (processProducts stopped (linesOf (Some orderOfTwoMelons)))
                 (tableOf watermelon)))
  = [available watermelon - 1].
Proof.
  assert (H : forall k, (k <= 1)%nat ->
                        takesDecrement watermelon (stopped k) = true)
    by (intros k _; reflexivity).
  split; [exact H |].
  exact (f_equal (map available)
           (proj1 (processProducts_same_record watermelon 1 stopped
                     (tableOf watermelon) H))).
Defined.

(** The table effect of one turn of the loop. *)
Lemma replay_processOneUnit_uniform (p : Product) (now : Date) :
  (forall rows, replay (callsOf (processOneUnit p now)) rows = rows)
  \/ exists patch,
       stockOnly patch
       /\ forall rows, replay (callsOf (processOneUnit p now)) rows
                       = sqlUpdate (id p) patch rows.
Proof.
  open_service; split_guards; run_calls;
    first [ left; intros rows; reflexivity
          | right; eexists; split; [| intros rows; reflexivity];
            repeat split ].
Qed.

Lemma replay_processOneUnit_swap (p q : Product) (now : Date)
  (rows : list Product) :
  id p <> id q ->
  replay (callsOf (processOneUnit p now))
         (replay (callsOf (processOneUnit q now)) rows)
  = replay (callsOf (processOneUnit q now))
           (replay (callsOf (processOneUnit p now)) rows).
Proof.
  intros Hne.
  destruct (replay_processOneUnit_uniform p now) as [Hp|(pp & Hsp & Hp)],
           (replay_processOneUnit_uniform q now) as [Hq|(pq & Hsq & Hq)];
    rewrite ?Hp, ?Hq, ?Hp; try reflexivity.
  apply sqlUpdate_swap; [apply Hsp | apply Hsq | assumption].
Qed.

Lemma replay_callsOfProducts_perm (now : Date) (l1 l2 : list OrderLine) :
  Permutation l1 l2 ->
  NoDup (map (fun line => id (product line)) l1) ->
  forall rows,
    replay (callsOfProducts (fun _ => now) l1) rows
    = replay (callsOfProducts (fun _ => now) l2) rows.
Proof.
  intros Hperm. induction Hperm as [|x l l' Hp IH|x y l|l l' l'' H1 IH1 H2 IH2];
    intros Hnd rows.
  - reflexivity.
  - simpl. rewrite !replay_app. apply IH.
    simpl in Hnd. inversion Hnd. assumption.
  - simpl. rewrite !replay_app. f_equal.
    apply replay_processOneUnit_swap.
    simpl in Hnd. inversion Hnd as [|a m Hnotin _]; subst.
    intros E. apply Hnotin. left. exact E.
  - rewrite IH1 by assumption. apply IH2.
    eapply Permutation_NoDup; [| exact Hnd].
    apply Permutation_map. assumption.
Qed.

(** X16.  When the lines of an order are records of pairwise different
    products and the clock reading is the same at every turn, the order
    in which the loop walks through them does not matter for the table. *)
Theorem processProducts_any_order (now : Date) (l1 l2 : list OrderLine)
  (w : World) :
  Permutation l1 l2 ->
  NoDup (map (fun line => id (product line)) l1) ->
  table (exec (processProducts (fun _ => now) l1) w)
  = table (exec (processProducts (fun _ => now) l2) w).
Proof.
  intros Hperm Hnd. rewrite !table_processProducts.
  apply replay_callsOfProducts_perm; assumption.
Qed.

Lemma processProducts_any_order_witness :
  Permutation [mkOrderLine milk; mkOrderLine hdmiCable]
              [mkOrderLine hdmiCable; mkOrderLine milk] /\
  table (exec (processProducts (fun _ => today)
                 [mkOrderLine milk; mkOrderLine hdmiCable])
              (mkWorld [hdmiCable; milk] []))
  = table (exec (processProducts (fun _ => today)
                   [mkOrderLine hdmiCable; mkOrderLine milk])
                (mkWorld [hdmiCable; milk] [])).
Proof.
  assert (Hp : Permutation [mkOrderLine milk; mkOrderLine hdmiCable]
                           [mkOrderLine hdmiCable; mkOrderLine milk])
    by apply perm_swap.
  split; [exact Hp |].
  refine (processProducts_any_order today _ _ (mkWorld [hdmiCable; milk] [])
            Hp _).
  simpl. constructor.
  - simpl. intros [H|H]; [discriminate H | exact H].
  - constructor; [simpl; tauto | constructor].
Defined.

Lemma callsOfProducts_no_debt (productList : list OrderLine) :
  forall clock : nat -> Date,
    Forall (fun line => 0 <= available (product line)) productList ->
    Forall writesNoDebt (callsOfProducts clock productList).
Proof.
  induction productList as [|line rest IH]; intros clock Hl; simpl.
  - constructor.
  - inversion Hl as [|l' r' H0 Hrest]; subst.
    apply Forall_app. split.
    + exact (calls_perform_no_debt
               (ProcessOneUnit (product line) (clock 0%nat)) H0).
    + apply IH. assumption.
Qed.

(** X17.  Handling an order whose records all have [available >= 0], on a
    table whose rows all have [available >= 0], leaves no row with a
    negative stock. *)
Theorem processOrder_no_debt (clock : nat -> Date) (order : option Order.t)
  (w : World) :
  Forall (fun line => 0 <= available (product line)) (linesOf order) ->
  Forall (fun r => 0 <= available r) (table w) ->
  Forall (fun r => 0 <= available r)
         (table (exec (processOrder clock order) w)).
Proof.
  intros Hl Hw. rewrite exec_processOrder, table_processProducts.
  apply replay_no_debt; [| assumption].
  apply callsOfProducts_no_debt. assumption.
Qed.

Lemma processOrder_no_debt_witness :
  Forall (fun line => 0 <= available (product line))
         (linesOf (Some orderOfTwoMelons)) /\
  Forall (fun r => 0 <= available r)
         (table (exec (processOrder stopped (Some orderOfTwoMelons))
                      (tableOf watermelon))).
Proof.
  assert (Hl : Forall (fun line => 0 <= available (product line))
                      (linesOf (Some orderOfTwoMelons)))
    by (repeat constructor; simpl; lia).
  assert (Hw : Forall (fun r => 0 <= available r) (table (tableOf watermelon)))
    by (repeat constructor; simpl; lia).
  split; [exact Hl |].
  exact (processOrder_no_debt stopped (Some orderOfTwoMelons)
           (tableOf watermelon) Hl Hw).
Defined.

(* ------------------------------------------------------------------ *)
(** ** The public handlers against the dispatch *)

(** X18.  On an EXPIRABLE product, [processOneUnit] and the public
    [handleExpiredProduct] are the same task: the handler's own test of
    the guard makes the test before it redundant. *)
Theorem processOneUnit_is_handleExpiredProduct
  (p : Product) (now : Date) (w : World) :
  type p = "EXPIRABLE" ->
  processOneUnit p now w = handleExpiredProduct p now w.
Proof.
  intros Hty. rewrite (switch_EXPIRABLE p now Hty).
  unfold processExpirableProduct, handleExpiredProduct.
  destruct ((0 <? available p) && isNotExpired p now); reflexivity.
Qed.

Lemma processOneUnit_is_handleExpiredProduct_witness :
  type butter = "EXPIRABLE" /\
  processOneUnit butter today (tableOf butter)
  = handleExpiredProduct butter today (tableOf butter).
Proof.
  split; [reflexivity |].
  exact (processOneUnit_is_handleExpiredProduct butter today (tableOf butter)
           eq_refl).
Defined.

(** X19.  A SEASONAL product whose season end is not after its season
    start is never served, whatever the clock and the stock: every
    purchase goes to the seasonal-restock handler and sends exactly one
    notification. *)
Theorem seasonal_empty_season
  (p : Product) (now : Date) (s e : Date) (ts te : Z) :
  type p = "SEASONAL" ->
  seasonStartDate p = Some s -> getTime s = Some ts ->
  seasonEndDate p = Some e -> getTime e = Some te ->
  te <= ts ->
  takesDecrement p now = false
  /\ processOneUnit p now = handleSeasonalProduct p now
  /\ countNotifications (callsOf (processOneUnit p now)) = 1%nat.
Proof.
  intros Hty Hs Hts He Hte Hle.
  assert (Hout : isWithinSeason p now = false).
  { destruct (isWithinSeason p now) eqn:G; [| reflexivity].
    apply isWithinSeason_spec in G.
    destruct G as (s' & e' & ts' & tn & te' & Hs' & He' & Hts' & _ & Hte' & H).
    assert (s' = s) by congruence. assert (e' = e) by congruence. subst.
    assert (ts' = ts) by congruence. assert (te' = te) by congruence. lia. }
  assert (Hrun : processOneUnit p now = handleSeasonalProduct p now).
  { rewrite (switch_SEASONAL p now Hty). unfold processSeasonalProduct.
    rewrite Hout. reflexivity. }
  split; [| split; [exact Hrun |]].
  - unfold takesDecrement. rewrite Hty, Hout. reflexivity.
  - rewrite Hrun. unfold handleSeasonalProduct.
    split_guards; run_calls; reflexivity.
Qed.

Lemma seasonal_empty_season_witness :
  type quince = "SEASONAL" /\
  takesDecrement quince (daysFromToday 3) = false.
Proof.
  split; [reflexivity |].
  refine (proj1 (seasonal_empty_season quince (daysFromToday 3)
                   (daysFromToday 10) (daysFromToday (-2))
                   (noon + 10 * DAY_IN_MS) (noon + -2 * DAY_IN_MS)
                   eq_refl eq_refl eq_refl eq_refl eq_refl _)).
  vm_compute. discriminate.
Defined.

(* ------------------------------------------------------------------ *)
(** ** An invalid clock reading *)

(** X20.  With an Invalid Date as [now] every comparison is false.  A
    SEASONAL product is then neither in season, nor restocked too late,
    nor before its season: the purchase ends in the delay notification.
    An EXPIRABLE product counts as expired: the expiration notification
    is sent and [available = 0] is written, whatever its expiry date. *)
Theorem processOneUnit_invalid_now (p : Product) (now : Date) (w : World) :
  getTime now = None ->
  (type p = "SEASONAL" ->
     journal (exec (processOneUnit p now) w)
     = journal w ++ [DbUpdate (id p) (patchLeadTime (leadTime p));
                     SendDelayNotification (leadTime p) (name p)])
  /\ (type p = "EXPIRABLE" ->
        journal (exec (processOneUnit p now) w)
        = journal w ++ [SendExpirationNotification (name p) (expiryDate p);
                        DbUpdate (id p) (patchAvailable 0)]).
Proof.
  intros Hn.
  assert (Hlt : forall d, js_lt (Some now) d = false).
  { intros d. unfold js_lt, num_gt. simpl. rewrite Hn.
    destruct (toNumber d); reflexivity. }
  assert (Hgt : forall d, js_gt d (Some now) = false).
  { intros d. exact (Hlt d). }
  split; intros Hty.
  - rewrite (switch_SEASONAL p now Hty). unfold processSeasonalProduct.
    unfold isWithinSeason. rewrite Hlt, andb_false_r. simpl.
    unfold handleSeasonalProduct, expectedRestockDate.
    rewrite Hn, Hgt. simpl. run_calls. rewrite <- app_assoc. reflexivity.
  - rewrite (switch_EXPIRABLE p now Hty).
    unfold processExpirableProduct, handleExpiredProduct, isNotExpired.
    rewrite Hgt, !andb_false_r. run_calls.
    rewrite <- app_assoc. reflexivity.
Qed.

Lemma processOneUnit_invalid_now_witness :
  getTime invalidDate = None /\
  journal (exec (processOneUnit butter invalidDate) (tableOf butter))
  = [SendExpirationNotification "Butter" (Some (daysFromToday 10));
     DbUpdate 1 (patchAvailable 0)].
Proof.
  split; [reflexivity |].
  exact (proj2 (processOneUnit_invalid_now butter invalidDate (tableOf butter)
                  eq_refl) eq_refl).
Defined.
